(** * GPU driver error handler of the syslog health monitor

    A shallow embedding of [pkg/gpudriver] (files [types.go] and
    [gpudriver_handler.go]) and the properties of its line classifier.

    Go strings are byte strings: they are modelled as [string], whose
    characters are the 256 values of [ascii].  Every atom of the pattern is
    an ASCII byte or a set of ASCII bytes, and an ASCII byte is never part
    of a longer UTF-8 sequence, so matching byte by byte agrees with the
    rune by rune matching of Go's [regexp] package on every input. *)

From Stdlib Require Import Strings.String Strings.Ascii Lists.List Bool Arith ZArith Lia.
Import ListNotations.
Open Scope string_scope.

(** * Strings *)

Module Str.

(** [s[:n]] *)
Fixpoint take (n : nat) (s : string) : string :=
  match n, s with
  | S n', String a s' => String a (take n' s')
  | _, _ => ""
  end.

(** [strings.HasPrefix] together with [strings.TrimPrefix]: the rest of [s]
    after the prefix [l], when [s] starts with [l]. *)
Fixpoint stripPrefix (l s : string) : option string :=
  match l with
  | "" => Some s
  | String a l' =>
      match s with
      | String b s' => if (a =? b)%char then stripPrefix l' s' else None
      | "" => None
      end
  end.

(** [strings.Contains s sub], as a proposition. *)
Definition Contains (s sub : string) : Prop :=
  exists p q, s = p ++ sub ++ q.

(** [strings.Contains s sub], as the scan it is. *)
Fixpoint contains (s sub : string) : bool :=
  match stripPrefix sub s with
  | Some _ => true
  | None => match s with
            | String _ s' => contains s' sub
            | "" => false
            end
  end.

(** Every character of [s] satisfies [p]. *)
Fixpoint all (p : ascii -> bool) (s : string) : bool :=
  match s with
  | "" => true
  | String a s' => p a && all p s'
  end.

(** [s] is a non-empty run of characters satisfying [p]. *)
Definition run1 (p : ascii -> bool) (s : string) : bool :=
  match s with
  | "" => false
  | String _ _ => all p s
  end.

(** The first character of [s], if any, does not satisfy [p]. *)
Definition stops (p : ascii -> bool) (s : string) : bool :=
  match s with
  | "" => true
  | String a _ => negb (p a)
  end.

End Str.

(** * The fragment of Go's [regexp] package the handler uses *)

Module regexp.

(** A character class is a list of inclusive byte ranges, as in
    [regexp/syntax]. *)
Definition CharClass := list (ascii * ascii).

Definition inRange (a : ascii) (r : ascii * ascii) : bool :=
  Ascii.leb (fst r) a && Ascii.leb a (snd r).

Definition inClass (c : CharClass) (a : ascii) : bool :=
  existsb (inRange a) c.

(** Parsed patterns.  Every repetition of the handler's pattern is a [+]
    applied to a one-character class, which is the only repetition kept. *)
Inductive Regexp : Type :=
| OpLiteral (l : string)
| OpPlus (c : CharClass)
| OpConcat (r1 r2 : Regexp)
| OpCapture (i : nat) (r : Regexp).

Definition Caps := list (option string).

Fixpoint setCap (i : nat) (v : string) (caps : Caps) : Caps :=
  match i, caps with
  | O, _ :: cs => Some v :: cs
  | S i', c :: cs => c :: setCap i' v cs
  | _, [] => []
  end.

(** The text between two input positions, each given by the input that
    remains there. *)
Definition consumed (s s' : string) : string :=
  Str.take (String.length s - String.length s') s.

Section Backtrack.
Context {A : Type}.

(** Greedy [x+] for a one-character [x]: one character is taken, then the
    longer repetition is preferred to the continuation. *)
Fixpoint plus (p : ascii -> bool) (s : string) (k : string -> option A)
  : option A :=
  match s with
  | "" => None
  | String a s' =>
      if p a then
        match plus p s' k with
        | Some x => Some x
        | None => k s'
        end
      else None
  end.

(** The backtracking matcher in continuation-passing style: [run r s caps k]
    matches [r] at the start of [s] and hands the remaining input and the
    captures to [k]; the alternatives are tried in priority order and the
    first one whose continuation succeeds wins (leftmost-first). *)
Fixpoint run (r : Regexp) (s : string) (caps : Caps)
    (k : string -> Caps -> option A) : option A :=
  match r with
  | OpLiteral l =>
      match Str.stripPrefix l s with
      | Some s' => k s' caps
      | None => None
      end
  | OpPlus c => plus (inClass c) s (fun s' => k s' caps)
  | OpConcat r1 r2 => run r1 s caps (fun s1 c1 => run r2 s1 c1 k)
  | OpCapture i r1 =>
      run r1 s caps (fun s1 c1 => k s1 (setCap i (consumed s s1) c1))
  end.
End Backtrack.

(** [Regexp.NumSubexp] *)
Fixpoint NumSubexp (r : Regexp) : nat :=
  match r with
  | OpLiteral _ | OpPlus _ => 0
  | OpConcat r1 r2 => NumSubexp r1 + NumSubexp r2
  | OpCapture _ r1 => S (NumSubexp r1)
  end.

(** A match anchored at the start of [s]: group 0 is the whole match. *)
Definition matchAt (re : Regexp) (s : string) : option Caps :=
  run re s (repeat None (S (NumSubexp re)))
      (fun s' caps => Some (setCap 0 (consumed s s') caps)).

(** The unanchored search: the leftmost position at which a match starts. *)
Fixpoint search (re : Regexp) (s : string) : option Caps :=
  match matchAt re s with
  | Some caps => Some caps
  | None =>
      match s with
      | String _ s' => search re s'
      | "" => None
      end
  end.

Definition capText (c : option string) : string :=
  match c with
  | Some v => v
  | None => ""
  end.

(** [Regexp.FindStringSubmatch]: the text of the leftmost match and of its
    groups, or the nil slice. *)
Definition FindStringSubmatch (re : Regexp) (s : string) : list string :=
  match search re s with
  | Some caps => map capText caps
  | None => []
  end.

End regexp.

Import regexp.

(** * types.go *)

Definition perl_d : CharClass := [("0", "9")]%char.
Definition perl_s : CharClass :=
  [("009", "010"); ("012", "013"); (" ", " ")]%char.
Definition hexColon : CharClass :=
  [("0", "9"); ("a", "f"); ("A", "F"); (":", ":")]%char.

Definition litModeset : string := "nvidia-modeset: ERROR: GPU:".
Definition litWaiting : string := ": Error while waiting for GPU progress: ".

(** [\d+:\d+:\d+:\d+] *)
Definition reTuple : Regexp :=
  OpConcat (OpPlus perl_d) (OpConcat (OpLiteral ":")
  (OpConcat (OpPlus perl_d) (OpConcat (OpLiteral ":")
  (OpConcat (OpPlus perl_d) (OpConcat (OpLiteral ":")
  (OpPlus perl_d)))))).

(** [nvidia-modeset: ERROR: GPU:(\d+): Error while waiting for GPU progress: (0x[0-9a-fA-F:]+)\s+(\d+:\d+:\d+:\d+)] *)
Definition reGPUDriverErrorPattern : Regexp :=
  OpConcat (OpLiteral litModeset)
  (OpConcat (OpCapture 1 (OpPlus perl_d))
  (OpConcat (OpLiteral litWaiting)
  (OpConcat (OpCapture 2 (OpConcat (OpLiteral "0x") (OpPlus hexColon)))
  (OpConcat (OpPlus perl_s)
  (OpCapture 3 reTuple))))).

(** This handler is stateless and reports errors immediately. *)
Record GPUDriverErrorHandler : Type := {
  nodeName : string;
  defaultAgentName : string;
  defaultComponentClass : string;
  checkName : string
}.

(** gpuDriverErrorEvent represents a parsed GPU driver error event *)
Record gpuDriverErrorEvent : Type := {
  gpuID : string;
  errorCode : string;
  errorDetails : string;
  message : string
}.

(** * The collaborators of the handler *)

Module pb.

(** Modelled from the spec: the enumeration [pb.RecommendedAction] is
    declared in the protobuf data model, outside this package.  The spec
    calls it an enumerated remediation hint; the member the handler names,
    the restart of the bare-metal host, is kept apart from the other members,
    which are told apart by their wire number. *)
Inductive RecommendedAction : Type :=
| RecommendedAction_RESTART_BM
| RecommendedAction_other (number : Z).

(** Modelled from the spec: [pb.Entity], an impacted entity, is a pair of a
    type and a value. *)
Record Entity : Type := {
  EntityType : string;
  EntityValue : string
}.

(** Modelled from the spec: [pb.HealthEvent], with the fields the spec
    lists, which are the fields the handler fills in; a timestamp is a
    number of nanoseconds. *)
Record HealthEvent : Type := {
  Version : Z;
  Agent : string;
  CheckName : string;
  ComponentClass : string;
  GeneratedTimestamp : Z;
  EntitiesImpacted : list Entity;
  Message : string;
  IsFatal : bool;
  IsHealthy : bool;
  NodeName : string;
  RecommendedAction_ : RecommendedAction;
  ErrorCode : list string
}.

(** Modelled from the spec: [pb.HealthEvents], the container of events. *)
Record HealthEvents : Type := {
  HealthEvents_Version : Z;
  Events : list HealthEvent
}.

End pb.

(** Modelled from the spec: the two counters are declared in another file
    of the package.  The spec has them keyed by node, and by node and GPU
    index, and incremented fire-and-forget: an increment cannot fail.  A
    counter vector holds one counter per tuple of label values. *)
Definition CounterVec := list string -> nat.

Definition Inc (labels : list string) (c : CounterVec) : CounterVec :=
  fun l => if list_eq_dec string_dec l labels then S (c l) else c l.

(** A record of the structured log: its message and its attributes. *)
Record LogRecord : Type := {
  logMsg : string;
  logAttrs : list (string * string)
}.

(** What the handler shares with the rest of the process: the two
    package-level counters, the default logger and the wall clock. *)
Record World : Type := {
  gpuDriverErrorCounterMetric : CounterVec;
  gpuDriverErrorsReportedMetric : CounterVec;
  slog : list LogRecord;
  now : Z
}.

(** What a call can read and write: the handler its receiver points to, and
    the world. *)
Record State : Type := {
  this : GPUDriverErrorHandler;
  world : World
}.

(** State passing, as a small monad. *)
Definition M (A : Type) : Type := State -> A * State.

Definition ret {A} (a : A) : M A := fun st => (a, st).

Definition bind {A B} (m : M A) (f : A -> M B) : M B :=
  fun st => let (a, st') := m st in f a st'.

Notation "x <- m ;; k" := (bind m (fun x => k))
  (at level 61, m at next level, right associativity).
Notation "m ;;; k" := (bind m (fun _ => k))
  (at level 61, right associativity).

(** [h.f] *)
Definition field {A} (f : GPUDriverErrorHandler -> A) : M A :=
  fun st => (f (this st), st).

Definition modifyWorld (f : World -> World) : M unit :=
  fun st => (tt, {| this := this st; world := f (world st) |}).

(** [gpuDriverErrorCounterMetric.WithLabelValues(labels...).Inc()] *)
Definition incErrorCounter (labels : list string) : M unit :=
  modifyWorld (fun w =>
    {| gpuDriverErrorCounterMetric := Inc labels (gpuDriverErrorCounterMetric w);
       gpuDriverErrorsReportedMetric := gpuDriverErrorsReportedMetric w;
       slog := slog w;
       now := now w |}).

(** [gpuDriverErrorsReportedMetric.WithLabelValues(labels...).Inc()] *)
Definition incErrorsReported (labels : list string) : M unit :=
  modifyWorld (fun w =>
    {| gpuDriverErrorCounterMetric := gpuDriverErrorCounterMetric w;
       gpuDriverErrorsReportedMetric := Inc labels (gpuDriverErrorsReportedMetric w);
       slog := slog w;
       now := now w |}).

(** [slog.Info(msg, attrs...)] *)
Definition slogInfo (msg : string) (attrs : list (string * string)) : M unit :=
  modifyWorld (fun w =>
    {| gpuDriverErrorCounterMetric := gpuDriverErrorCounterMetric w;
       gpuDriverErrorsReportedMetric := gpuDriverErrorsReportedMetric w;
       slog := slog w ++ [{| logMsg := msg; logAttrs := attrs |}];
       now := now w |}).

(** [timestamppb.New(time.Now())] *)
Definition timeNow : M Z := fun st => (now (world st), st).

(** Go's [error]; the handler never builds one. *)
Definition error : Type := string.

(** * gpudriver_handler.go *)

(** NewGPUDriverErrorHandler creates a new GPUDriverErrorHandler instance. *)
Definition NewGPUDriverErrorHandler
    (nodeName defaultAgentName defaultComponentClass checkName : string)
  : option GPUDriverErrorHandler * option error :=
  (Some {| nodeName := nodeName;
           defaultAgentName := defaultAgentName;
           defaultComponentClass := defaultComponentClass;
           checkName := checkName |}, None).

(** parseGPUDriverError parses a GPU driver error from the log message. *)
Definition parseGPUDriverError (message : string) : option gpuDriverErrorEvent :=
  let matches := FindStringSubmatch reGPUDriverErrorPattern message in
  if (List.length matches <? 4)%nat then None
  else
    let gpuID := nth 1 matches "" in
    let errorCode := nth 2 matches "" in
    let errorDetails := nth 3 matches "" in
    Some {| gpuID := gpuID;
            errorCode := errorCode;
            errorDetails := errorDetails;
            message := message |}.

(** The [fmt.Sprintf] of [createHealthEventFromError]: every verb is [%s]. *)
Definition formatMessage (event : gpuDriverErrorEvent) : string :=
  "GPU " ++ gpuID event ++ ": nvidia-modeset driver error detected. " ++
  "Error code: " ++ errorCode event ++ ", Details: " ++ errorDetails event ++ ". " ++
  "This indicates the GPU driver is not coming up properly. " ++
  "nvidia-driver-daemonset and device-plugin daemonset may be crashing. " ++
  "Original message: " ++ message event.

Definition createHealthEventFromError (event : gpuDriverErrorEvent)
  : M pb.HealthEvents :=
  node <- field nodeName ;;
  incErrorsReported [node; gpuID event] ;;;
  let message := formatMessage event in
  agent <- field defaultAgentName ;;
  check <- field checkName ;;
  class <- field defaultComponentClass ;;
  stamp <- timeNow ;;
  node' <- field nodeName ;;
  let healthEvent :=
    {| pb.Version := 1;
       pb.Agent := agent;
       pb.CheckName := check;
       pb.ComponentClass := class;
       pb.GeneratedTimestamp := stamp;
       pb.EntitiesImpacted :=
         [{| pb.EntityType := "GPU"; pb.EntityValue := gpuID event |}];
       pb.Message := message;
       pb.IsFatal := true;
       pb.IsHealthy := false;
       pb.NodeName := node';
       pb.RecommendedAction_ := pb.RecommendedAction_RESTART_BM;
       pb.ErrorCode := ["GPU_DRIVER_ERROR"] |} in
  ret {| pb.HealthEvents_Version := 1; pb.Events := [healthEvent] |}.

(** ProcessLine processes a syslog line and returns health events for
    detected GPU driver errors. *)
Definition ProcessLine (message : string)
  : M (option pb.HealthEvents * option error) :=
  match parseGPUDriverError message with
  | None => ret (None, None)
  | Some event =>
      node <- field nodeName ;;
      incErrorCounter [node] ;;;
      node' <- field nodeName ;;
      slogInfo "GPU driver error detected"
        [("gpu_id", gpuID event); ("error_code", errorCode event);
         ("node", node')] ;;;
      events <- createHealthEventFromError event ;;
      ret (Some events, None)
  end.

(** * What the pattern denotes *)

(** [Parse r w caps caps']: the text [w] is in the language of [r], and
    reading it with the groups [caps] on entry leaves the groups [caps']. *)
Fixpoint Parse (r : Regexp) (w : string) (caps caps' : Caps) : Prop :=
  match r with
  | OpLiteral l => w = l /\ caps' = caps
  | OpPlus c => Str.run1 (inClass c) w = true /\ caps' = caps
  | OpConcat r1 r2 =>
      exists w1 w2 mid,
        w = w1 ++ w2 /\ Parse r1 w1 caps mid /\ Parse r2 w2 mid caps'
  | OpCapture i r1 =>
      exists mid, Parse r1 w caps mid /\ caps' = setCap i w mid
  end.

Definition isDigit : ascii -> bool := inClass perl_d.
Definition isSpace : ascii -> bool := inClass perl_s.
Definition isHexColon : ascii -> bool := inClass hexColon.

(** The four-part tuple [<d>:<d>:<d>:<d>]. *)
Definition Tuple (t : string) : Prop :=
  exists d1 d2 d3 d4,
    Str.run1 isDigit d1 = true /\ Str.run1 isDigit d2 = true /\
    Str.run1 isDigit d3 = true /\ Str.run1 isDigit d4 = true /\
    t = d1 ++ ":" ++ d2 ++ ":" ++ d3 ++ ":" ++ d4.

(** An instance [w] of the failure signature, with its three fields:
    the marker, a run of digits [gpu], the error-wait phrase, [0x] and a run
    of hexadecimal digits and colons, a run of white space, a tuple. *)
Definition Signature (gpu code tuple w : string) : Prop :=
  exists c ws,
    Str.run1 isDigit gpu = true /\
    Str.run1 isHexColon c = true /\ code = "0x" ++ c /\
    Str.run1 isSpace ws = true /\
    Tuple tuple /\
    w = litModeset ++ gpu ++ litWaiting ++ code ++ ws ++ tuple.

(** The line has an instance of the failure signature somewhere. *)
Definition HasSignature (line : string) : Prop :=
  exists p w q gpu code tuple,
    line = p ++ w ++ q /\ Signature gpu code tuple w.

(** The groups before a match starts: none is set. *)
Definition caps0 : Caps := repeat None (S (NumSubexp reGPUDriverErrorPattern)).

(** [Commits r w s' caps caps']: on the input [w ++ s'] the matcher's first
    choice for [r] is to read exactly [w], leaving the groups [caps'], as soon
    as the continuation succeeds there. *)
Definition Commits (r : Regexp) (w s' : string) (caps caps' : Caps) : Prop :=
  forall (A : Type) (K : string -> Caps -> option A) (x : A),
    K s' caps' = Some x -> run r (w ++ s') caps K = Some x.

(** ** The vocabulary of the specification *)

Definition hexDigit : CharClass := [("0", "9"); ("a", "f"); ("A", "F")]%char.
Definition isHex : ascii -> bool := inClass hexDigit.

(** [<hex>[:<digits>]]: a hexadecimal error code, optionally followed by a
    colon-separated sub-index. *)
Definition ErrorCodeShape (code : string) : Prop :=
  exists h,
    Str.run1 isHex h = true /\
    (code = "0x" ++ h \/
     exists sub, Str.run1 isDigit sub = true /\ code = "0x" ++ h ++ ":" ++ sub).

(** The line is exactly
    [nvidia-modeset: ERROR: GPU:<digits>: Error while waiting for GPU progress: <hex>[:<digits>] <d>:<d>:<d>:<d>]. *)
Definition ExactSignature (gpu code tuple line : string) : Prop :=
  Str.run1 isDigit gpu = true /\ ErrorCodeShape code /\ Tuple tuple /\
  line = litModeset ++ gpu ++ litWaiting ++ code ++ " " ++ tuple.

(** What follows [nvidia-modeset: ERROR: GPU:<n>:] in an instance of the
    signature. *)
Definition SignatureTail (t : string) : Prop :=
  exists c ws tuple,
    Str.run1 isHexColon c = true /\ Str.run1 isSpace ws = true /\ Tuple tuple /\
    t = " Error while waiting for GPU progress: " ++ ("0x" ++ c) ++ ws ++ tuple.

(** The parts occur in [s] one after the other, in the order of the list. *)
Fixpoint InOrder (parts : list string) (s : string) : Prop :=
  match parts with
  | [] => True
  | part :: parts' => exists a b, s = a ++ part ++ b /\ InOrder parts' b
  end.

Definition classification : string := "nvidia-modeset driver error detected".
Definition explanation : string :=
  "This indicates the GPU driver is not coming up properly. " ++
  "nvidia-driver-daemonset and device-plugin daemonset may be crashing.".

(** An event, a container and an outcome without their timestamps. *)
Definition eraseTimestamp (e : pb.HealthEvent) : pb.HealthEvent :=
  {| pb.Version := pb.Version e;
     pb.Agent := pb.Agent e;
     pb.CheckName := pb.CheckName e;
     pb.ComponentClass := pb.ComponentClass e;
     pb.GeneratedTimestamp := 0;
     pb.EntitiesImpacted := pb.EntitiesImpacted e;
     pb.Message := pb.Message e;
     pb.IsFatal := pb.IsFatal e;
     pb.IsHealthy := pb.IsHealthy e;
     pb.NodeName := pb.NodeName e;
     pb.RecommendedAction_ := pb.RecommendedAction_ e;
     pb.ErrorCode := pb.ErrorCode e |}.

Definition eraseTimestamps (r : option pb.HealthEvents * option error)
  : option pb.HealthEvents * option error :=
  (option_map
     (fun evs => {| pb.HealthEvents_Version := pb.HealthEvents_Version evs;
                    pb.Events := map eraseTimestamp (pb.Events evs) |})
     (fst r),
   snd r).

(** The owning process: the clock has some reading at each call. *)
Definition setClock (t : Z) : M unit :=
  modifyWorld (fun w =>
    {| gpuDriverErrorCounterMetric := gpuDriverErrorCounterMetric w;
       gpuDriverErrorsReportedMetric := gpuDriverErrorsReportedMetric w;
       slog := slog w;
       now := t |}).

(** A sequence of calls of [ProcessLine] on one handler, each with the time
    at which it is made. *)
Fixpoint processLines (calls : list (Z * string))
  : M (list (option pb.HealthEvents * option error)) :=
  match calls with
  | [] => ret []
  | (t, line) :: calls' =>
      setClock t ;;;
      r <- ProcessLine line ;;
      rs <- processLines calls' ;;
      ret (r :: rs)
  end.

(** The characters at which no match of the pattern can start. *)
Definition notN (a : ascii) : bool := negb (a =? "n")%char.

(** ** The inputs of the package's tests *)

Definition testHandler : GPUDriverErrorHandler :=
  {| nodeName := "test-node";
     defaultAgentName := "test-agent";
     defaultComponentClass := "GPU";
     checkName := "test-check" |}.

Definition testState : State :=
  {| this := testHandler;
     world := {| gpuDriverErrorCounterMetric := fun _ => 0;
                 gpuDriverErrorsReportedMetric := fun _ => 0;
                 slog := [];
                 now := 1700000000 |} |}.

Definition lineGPU2 : string :=
  "nvidia-modeset: ERROR: GPU:2: Error while waiting for GPU progress: 0x0000c77d:0 2:0:4048:4040".

Definition lineOtherError : string :=
  "nvidia-modeset: ERROR: GPU:0: Some other error".

Definition lineOther : string := "Some other log message".

Definition lineGPU5 : string :=
  "nvidia-modeset: ERROR: GPU:5: Error while waiting for GPU progress: 0x0000abcd:1 5:0:1234:5678".

(** A line whose error code is made of colons only. *)
Definition lineColons : string :=
  "nvidia-modeset: ERROR: GPU:0: Error while waiting for GPU progress: 0x:: 1:2:3:4".

(** A line that starts as [lineOtherError] does and holds a whole instance
    of the signature further on. *)
Definition lineLaterInstance : string :=
  lineOtherError ++ "; " ++ lineGPU2.

(** ** Counting over a sequence of calls *)

(** The line is one on which the parser finds an instance. *)
Definition isHit (line : string) : bool :=
  match parseGPUDriverError line with
  | Some _ => true
  | None => false
  end.

(** The parser finds an instance whose GPU index is [gpu]. *)
Definition isHitOn (gpu line : string) : bool :=
  match parseGPUDriverError line with
  | Some ev => (gpuID ev =? gpu)%string
  | None => false
  end.

Definition hitCount (calls : list (Z * string)) : nat :=
  List.length (filter (fun call => isHit (snd call)) calls).

Definition hitCountOn (gpu : string) (calls : list (Z * string)) : nat :=
  List.length (filter (fun call => isHitOn gpu (snd call)) calls).

(** The number of outcomes that carry a container. *)
Definition emittedCount (rs : list (option pb.HealthEvents * option error)) : nat :=
  List.length (filter (fun r => match fst r with Some _ => true | None => false end) rs).

(** The shortest instance of the signature. *)
Definition lineShortest : string :=
  "nvidia-modeset: ERROR: GPU:0: Error while waiting for GPU progress: 0x0 0:0:0:0".

(** A syslog line: the instance of [lineGPU2] after a kernel prefix, with
    tabs before the tuple and more text after it. *)
Definition lineSyslog : string :=
  "Oct  3 11:02:07 node-7 kernel: [ 5012.101] nvidia-modeset: ERROR: GPU:2: Error while waiting for GPU progress: 0x0000c77d:0" ++
  String "009" (String "009" "2:0:4048:4040 (retry)").

(** * Strings: lemmas *)

Module StrFacts.
Import Str.

Lemma app_assoc (a b c : string) : (a ++ b) ++ c = a ++ b ++ c.
Proof. induction a as [|x a IH]; simpl; [reflexivity | now rewrite IH]. Qed.

Lemma app_nil_r (a : string) : a ++ "" = a.
Proof. induction a as [|x a IH]; simpl; [reflexivity | now rewrite IH]. Qed.

Lemma length_app (a b : string) :
  String.length (a ++ b) = String.length a + String.length b.
Proof. induction a as [|x a IH]; simpl; [reflexivity | now rewrite IH]. Qed.

Lemma take_app (w s : string) : take (String.length w) (w ++ s) = w.
Proof. induction w as [|x w IH]; simpl; [now destruct s | now rewrite IH]. Qed.

Lemma stripPrefix_app (l s : string) : stripPrefix l (l ++ s) = Some s.
Proof.
  induction l as [|x l IH]; simpl; [reflexivity|].
  now rewrite Ascii.eqb_refl.
Qed.

Lemma stripPrefix_Some (l s s' : string) :
  stripPrefix l s = Some s' -> s = l ++ s'.
Proof.
  revert s; induction l as [|x l IH]; simpl; intros s H.
  - now inversion H.
  - destruct s as [|y s]; [discriminate|].
    destruct (Ascii.eqb_spec x y) as [->|]; [|discriminate].
    now rewrite (IH _ H).
Qed.

Lemma contains_eq (s sub : string) :
  contains s sub =
  match stripPrefix sub s with
  | Some _ => true
  | None => match s with
            | String _ s' => contains s' sub
            | "" => false
            end
  end.
Proof. now destruct s. Qed.

Lemma contains_Contains (s sub : string) :
  contains s sub = true <-> Contains s sub.
Proof.
  split.
  - induction s as [|x s IH]; simpl.
    + destruct (stripPrefix sub "") eqn:E; [|discriminate].
      intros _. apply stripPrefix_Some in E. exists "", s. exact E.
    + destruct (stripPrefix sub (String x s)) eqn:E.
      * intros _. apply stripPrefix_Some in E. exists "", s0. exact E.
      * intros H. destruct (IH H) as (a & b & ->).
        exists (String x a), b. reflexivity.
  - intros (a & b & ->). induction a as [|x a IH].
    + change ("" ++ sub ++ b) with (sub ++ b).
      rewrite contains_eq. now rewrite stripPrefix_app.
    + rewrite contains_eq. change (String x a ++ sub ++ b) with (String x (a ++ sub ++ b)).
      now destruct (stripPrefix sub (String x (a ++ sub ++ b))).
Qed.

Lemma run1_all (p : ascii -> bool) (w : string) :
  run1 p w = true -> all p w = true.
Proof. destruct w; [discriminate | trivial]. Qed.

Lemma run1_cons (p : ascii -> bool) (a : ascii) (w : string) :
  p a = true -> all p w = true -> run1 p (String a w) = true.
Proof. simpl. now intros -> ->. Qed.

Lemma run1_inv (p : ascii -> bool) (w : string) :
  run1 p w = true ->
  exists a w', w = String a w' /\ p a = true /\ all p w' = true.
Proof.
  destruct w as [|a w]; [discriminate|]. simpl.
  intros H. apply andb_true_iff in H. now exists a, w.
Qed.

Lemma all_app (p : ascii -> bool) (a b : string) :
  all p (a ++ b) = all p a && all p b.
Proof.
  induction a as [|x a IH]; simpl; [reflexivity|].
  now rewrite IH, andb_assoc.
Qed.

Lemma all_impl (p q : ascii -> bool) (s : string) :
  (forall a, p a = true -> q a = true) -> all p s = true -> all q s = true.
Proof.
  intros Hpq. induction s as [|x s IH]; simpl; [trivial|].
  intros H. apply andb_true_iff in H. destruct H as [Hx Hs].
  now rewrite (Hpq x Hx), (IH Hs).
Qed.

Lemma run1_app (p : ascii -> bool) (a b : string) :
  run1 p a = true -> all p b = true -> run1 p (a ++ b) = true.
Proof.
  intros Ha Hb. apply run1_inv in Ha. destruct Ha as (x & a' & -> & Px & Ha).
  simpl. now rewrite Px, all_app, Ha, Hb.
Qed.

Lemma run1_impl (p q : ascii -> bool) (s : string) :
  (forall a, p a = true -> q a = true) -> run1 p s = true -> run1 q s = true.
Proof.
  intros Hpq. destruct s as [|x s]; [discriminate|]. apply all_impl, Hpq.
Qed.

End StrFacts.

(** * The matcher against the denotation *)

Module RegexpFacts.
Import Str StrFacts.

Lemma consumed_app (w s : string) : consumed (w ++ s) s = w.
Proof.
  unfold consumed. rewrite length_app.
  replace (String.length w + String.length s - String.length s)
    with (String.length w) by lia.
  apply take_app.
Qed.

Section Matcher.
Variable A : Type.
Implicit Types (k : string -> option A) (K : string -> Caps -> option A).

(** A successful [x+] took a non-empty run and its continuation succeeded
    on what follows. *)
Lemma plus_sound p s k x :
  plus p s k = Some x ->
  exists w s', s = w ++ s' /\ run1 p w = true /\ k s' = Some x.
Proof.
  revert x; induction s as [|a s IH]; simpl; intros x H; [discriminate|].
  destruct (p a) eqn:Pa; [|discriminate].
  destruct (plus p s k) as [y|] eqn:E.
  - destruct (IH y eq_refl) as (w & s' & -> & Hw & Hk).
    exists (String a w), s'. repeat split.
    + apply run1_cons; [exact Pa | now apply run1_all].
    + now rewrite Hk.
  - exists (String a ""), s. repeat split; [|exact H].
    simpl. now rewrite Pa.
Qed.

(** [x+] finds a run whenever one is followed by a success of the
    continuation. *)
Lemma plus_complete p w s' k :
  run1 p w = true -> k s' <> None -> plus p (w ++ s') k <> None.
Proof.
  intros Hw Hk. apply run1_inv in Hw. destruct Hw as (a & w' & -> & Pa & Hall).
  revert a Pa; induction w' as [|b w' IH]; intros a Pa; simpl; rewrite Pa.
  - now destruct (plus p s' k).
  - simpl in Hall. apply andb_true_iff in Hall. destruct Hall as [Pb Hall].
    specialize (IH Hall b Pb). simpl in IH.
    destruct (if p b then _ else _); [discriminate | contradiction].
Qed.

(** [x+] is greedy: when the run cannot be extended, the continuation that
    succeeds after the whole run gives the result. *)
Lemma plus_greedy p w s' k x :
  run1 p w = true -> stops p s' = true -> k s' = Some x ->
  plus p (w ++ s') k = Some x.
Proof.
  intros Hw Hs Hk. apply run1_inv in Hw. destruct Hw as (a & w' & -> & Pa & Hall).
  revert a Pa; induction w' as [|b w' IH]; intros a Pa; simpl; rewrite Pa.
  - destruct s' as [|c s']; simpl; [exact Hk|].
    simpl in Hs. apply negb_true_iff in Hs. now rewrite Hs.
  - simpl in Hall. apply andb_true_iff in Hall. destruct Hall as [Pb Hall].
    specialize (IH Hall b Pb). simpl in IH. now rewrite IH.
Qed.

Lemma run_sound r : forall s caps K x,
  run r s caps K = Some x ->
  exists w s' caps',
    s = w ++ s' /\ Parse r w caps caps' /\ K s' caps' = Some x.
Proof.
  induction r as [l|c|r1 IH1 r2 IH2|i r IH]; simpl; intros s caps K x H.
  - destruct (stripPrefix l s) as [s'|] eqn:E; [|discriminate].
    apply stripPrefix_Some in E. now exists l, s', caps.
  - apply plus_sound in H. destruct H as (w & s' & -> & Hw & Hk).
    now exists w, s', caps.
  - apply IH1 in H. destruct H as (w1 & s1 & c1 & -> & P1 & H).
    apply IH2 in H. destruct H as (w2 & s2 & c2 & -> & P2 & H).
    exists (w1 ++ w2), s2, c2. repeat split.
    + now rewrite app_assoc.
    + now exists w1, w2, c1.
    + exact H.
  - apply IH in H. destruct H as (w & s' & c1 & -> & P1 & H).
    rewrite consumed_app in H.
    exists w, s', (setCap i w c1). repeat split; [|exact H].
    now exists c1.
Qed.

Lemma run_complete r : forall w s' c0 c1 caps K,
  Parse r w c0 c1 -> (forall c, K s' c <> None) ->
  run r (w ++ s') caps K <> None.
Proof.
  induction r as [l|c|r1 IH1 r2 IH2|i r IH]; simpl; intros w s' c0 c1 caps K P HK.
  - destruct P as [-> _]. rewrite stripPrefix_app. apply HK.
  - destruct P as [Hw _]. apply plus_complete; [exact Hw | apply HK].
  - destruct P as (w1 & w2 & mid & -> & P1 & P2). rewrite app_assoc.
    apply (IH1 w1 (w2 ++ s') c0 mid); [exact P1|].
    intros c. apply (IH2 w2 s' mid c1); [exact P2 | exact HK].
  - destruct P as (mid & P1 & _).
    apply (IH w s' c0 mid); [exact P1|]. intros c. apply HK.
Qed.

Lemma run_literal l s caps K : run (OpLiteral l) (l ++ s) caps K = K s caps.
Proof. simpl. now rewrite stripPrefix_app. Qed.

Lemma run_plus_greedy c w s' caps K x :
  run1 (inClass c) w = true -> stops (inClass c) s' = true ->
  K s' caps = Some x ->
  run (OpPlus c) (w ++ s') caps K = Some x.
Proof. intros Hw Hs HK. simpl. now apply plus_greedy. Qed.
End Matcher.

Lemma matchAt_sound re s caps :
  matchAt re s = Some caps ->
  exists w s' caps',
    s = w ++ s' /\ Parse re w (repeat None (S (NumSubexp re))) caps' /\
    caps = setCap 0 w caps'.
Proof.
  unfold matchAt. intros H. apply run_sound in H.
  destruct H as (w & s' & caps' & -> & P & H).
  rewrite consumed_app in H. inversion H. now exists w, s', caps'.
Qed.

Lemma matchAt_complete re w s' c0 c1 :
  Parse re w c0 c1 -> matchAt re (w ++ s') <> None.
Proof.
  intros P. unfold matchAt. eapply run_complete; [exact P | discriminate].
Qed.

(** The search reports a match that starts somewhere in the line. *)
Lemma search_sound re s caps :
  search re s = Some caps ->
  exists p w q caps',
    s = p ++ w ++ q /\ Parse re w (repeat None (S (NumSubexp re))) caps' /\
    caps = setCap 0 w caps'.
Proof.
  induction s as [|a s IH]; simpl.
  - destruct (matchAt re "") eqn:E; [|discriminate].
    intros H; inversion H; subst. apply matchAt_sound in E.
    destruct E as (w & s' & caps' & E & P & ->). now exists "", w, s', caps'.
  - destruct (matchAt re (String a s)) eqn:E.
    + intros H; inversion H; subst. apply matchAt_sound in E.
      destruct E as (w & s' & caps' & E & P & ->). now exists "", w, s', caps'.
    + intros H. destruct (IH H) as (p & w & q & caps' & -> & P & ->).
      now exists (String a p), w, q, caps'.
Qed.

Lemma search_eq re s :
  search re s =
  match matchAt re s with
  | Some caps => Some caps
  | None => match s with
            | String _ s' => search re s'
            | "" => None
            end
  end.
Proof. now destruct s. Qed.

(** The search misses no occurrence. *)
Lemma search_complete re p w q c0 c1 :
  Parse re w c0 c1 -> search re (p ++ w ++ q) <> None.
Proof.
  intros P. induction p as [|a p IH].
  - change ("" ++ w ++ q) with (w ++ q). rewrite search_eq.
    pose proof (matchAt_complete re w q c0 c1 P) as H.
    now destruct (matchAt re (w ++ q)).
  - rewrite search_eq. change (String a p ++ w ++ q) with (String a (p ++ w ++ q)).
    now destruct (matchAt re (String a (p ++ w ++ q))).
Qed.

End RegexpFacts.


(** * The handler's pattern *)

Module PatternFacts.
Import Str StrFacts RegexpFacts.

Ltac break :=
  repeat match goal with
         | H : exists _, _ |- _ => destruct H
         | H : _ /\ _ |- _ => destruct H
         end.

Lemma Parse_reTuple w c c' : Parse reTuple w c c' <-> Tuple w /\ c' = c.
Proof.
  unfold reTuple, Tuple, isDigit. cbn [Parse]. split.
  - intros H. break. subst. split; [|reflexivity]. eauto 10.
  - intros [(d1 & d2 & d3 & d4 & H1 & H2 & H3 & H4 & ->) ->].
    exists d1, (":" ++ d2 ++ ":" ++ d3 ++ ":" ++ d4), c. repeat split; trivial.
    exists ":", (d2 ++ ":" ++ d3 ++ ":" ++ d4), c. repeat split.
    exists d2, (":" ++ d3 ++ ":" ++ d4), c. repeat split; trivial.
    exists ":", (d3 ++ ":" ++ d4), c. repeat split.
    exists d3, (":" ++ d4), c. repeat split; trivial.
    exists ":", d4, c. repeat split; trivial.
Qed.

(** The language of the pattern is the failure signature, and its groups
    are the three fields. *)
Lemma Parse_pattern w caps' :
  Parse reGPUDriverErrorPattern w caps0 caps' <->
  exists gpu code tuple,
    Signature gpu code tuple w /\
    caps' = [None; Some gpu; Some code; Some tuple].
Proof.
  unfold reGPUDriverErrorPattern, Signature, isDigit, isSpace, isHexColon.
  cbn [Parse]. split.
  - intros H. break.
    match goal with H : Parse reTuple _ _ _ |- _ => apply Parse_reTuple in H; destruct H end.
    subst. do 3 eexists. split; [|reflexivity]. do 2 eexists. repeat split; eauto.
  - intros (gpu & code & tuple & (c & ws & Hg & Hc & -> & Hws & Ht & ->) & ->).
    exists litModeset, (gpu ++ litWaiting ++ ("0x" ++ c) ++ ws ++ tuple), caps0.
    repeat split.
    exists gpu, (litWaiting ++ ("0x" ++ c) ++ ws ++ tuple), (setCap 1 gpu caps0).
    repeat split; [now exists caps0|].
    exists litWaiting, (("0x" ++ c) ++ ws ++ tuple), (setCap 1 gpu caps0).
    repeat split.
    exists ("0x" ++ c), (ws ++ tuple), (setCap 2 ("0x" ++ c) (setCap 1 gpu caps0)).
    repeat split.
    { exists (setCap 1 gpu caps0). split; [|reflexivity].
      now exists "0x", c, (setCap 1 gpu caps0). }
    exists ws, tuple, (setCap 2 ("0x" ++ c) (setCap 1 gpu caps0)).
    repeat split; trivial.
    exists (setCap 2 ("0x" ++ c) (setCap 1 gpu caps0)). split; [|reflexivity].
    apply Parse_reTuple. now split.
Qed.


Lemma Commits_literal l s' caps : Commits (OpLiteral l) l s' caps caps.
Proof. intros A K x H. now rewrite run_literal. Qed.

Lemma Commits_plus c w s' caps :
  run1 (inClass c) w = true -> stops (inClass c) s' = true ->
  Commits (OpPlus c) w s' caps caps.
Proof. intros Hw Hs A K x H. now apply run_plus_greedy. Qed.

Lemma Commits_concat r1 r2 w1 w2 s' caps mid caps' :
  Commits r1 w1 (w2 ++ s') caps mid -> Commits r2 w2 s' mid caps' ->
  Commits (OpConcat r1 r2) (w1 ++ w2) s' caps caps'.
Proof.
  intros H1 H2 A K x H. rewrite app_assoc. cbn [run].
  apply H1. now apply H2.
Qed.

Lemma Commits_capture i r w s' caps caps' :
  Commits r w s' caps caps' ->
  Commits (OpCapture i r) w s' caps (setCap i w caps').
Proof.
  intros H1 A K x H. cbn [run]. apply H1. now rewrite consumed_app.
Qed.

Lemma digit_not_space a : isDigit a = true -> isSpace a = false.
Proof.
  destruct a as [[] [] [] [] [] [] [] []]; vm_compute; congruence.
Qed.

Lemma space_not_hexColon a : isSpace a = true -> isHexColon a = false.
Proof.
  destruct a as [[] [] [] [] [] [] [] []]; vm_compute; congruence.
Qed.

Lemma stops_run1 (p q : ascii -> bool) w s :
  (forall a, p a = true -> q a = false) ->
  run1 p w = true -> stops q (w ++ s) = true.
Proof.
  intros Hpq Hw. apply run1_inv in Hw. destruct Hw as (a & w' & -> & Pa & _).
  simpl. now rewrite (Hpq a Pa).
Qed.

Lemma Commits_reTuple t s' caps :
  Tuple t -> stops isDigit s' = true -> Commits reTuple t s' caps caps.
Proof.
  intros (d1 & d2 & d3 & d4 & H1 & H2 & H3 & H4 & ->) Hs. unfold reTuple.
  repeat first
    [ eapply Commits_concat
    | apply Commits_literal
    | apply Commits_plus; [assumption | first [exact Hs | reflexivity]] ].
Qed.

(** On an instance of the signature that no digit follows, the anchored
    match reads the whole instance and its groups are the three fields. *)
Lemma Commits_pattern gpu code tuple w s' :
  Signature gpu code tuple w -> stops isDigit s' = true ->
  Commits reGPUDriverErrorPattern w s' caps0
          [None; Some gpu; Some code; Some tuple].
Proof.
  intros (c & ws & Hg & Hc & -> & Hws & Ht & ->) Hs.
  change [None; Some gpu; Some ("0x" ++ c); Some tuple]
    with (setCap 3 tuple (setCap 2 ("0x" ++ c) (setCap 1 gpu caps0))).
  unfold reGPUDriverErrorPattern.
  eapply Commits_concat; [apply Commits_literal|].
  apply Commits_concat with (mid := setCap 1 gpu caps0).
  { apply Commits_capture, Commits_plus; [exact Hg | reflexivity]. }
  eapply Commits_concat; [apply Commits_literal|].
  apply Commits_concat with (mid := setCap 2 ("0x" ++ c) (setCap 1 gpu caps0)).
  { apply Commits_capture. eapply Commits_concat; [apply Commits_literal|].
    apply Commits_plus; [exact Hc|].
    rewrite app_assoc. now apply stops_run1 with (p := isSpace); [apply space_not_hexColon|]. }
  apply Commits_concat with (mid := setCap 2 ("0x" ++ c) (setCap 1 gpu caps0)).
  { apply Commits_plus; [exact Hws|].
    destruct Ht as (d1 & d2 & d3 & d4 & H1 & _ & _ & _ & ->).
    rewrite app_assoc. now apply stops_run1 with (p := isDigit); [apply digit_not_space|]. }
  apply Commits_capture. now apply Commits_reTuple.
Qed.

Lemma matchAt_signature gpu code tuple w s' :
  Signature gpu code tuple w -> stops isDigit s' = true ->
  matchAt reGPUDriverErrorPattern (w ++ s') =
  Some [Some w; Some gpu; Some code; Some tuple].
Proof.
  intros Hw Hs. unfold matchAt. apply (Commits_pattern _ _ _ _ _ Hw Hs).
  now rewrite consumed_app.
Qed.

Lemma search_signature gpu code tuple w s' :
  Signature gpu code tuple w -> stops isDigit s' = true ->
  search reGPUDriverErrorPattern (w ++ s') =
  Some [Some w; Some gpu; Some code; Some tuple].
Proof.
  intros Hw Hs. rewrite search_eq. now rewrite (matchAt_signature _ _ _ _ _ Hw Hs).
Qed.

(** What the search of the pattern returns. *)
Lemma search_pattern_sound line caps :
  search reGPUDriverErrorPattern line = Some caps ->
  exists p w q gpu code tuple,
    line = p ++ w ++ q /\ Signature gpu code tuple w /\
    caps = [Some w; Some gpu; Some code; Some tuple].
Proof.
  intros H. apply search_sound in H. destruct H as (p & w & q & caps' & -> & P & ->).
  apply Parse_pattern in P. destruct P as (gpu & code & tuple & Hw & ->).
  now exists p, w, q, gpu, code, tuple.
Qed.

Lemma search_pattern_complete line :
  HasSignature line -> search reGPUDriverErrorPattern line <> None.
Proof.
  intros (p & w & q & gpu & code & tuple & -> & Hw).
  apply search_complete with (c0 := caps0) (c1 := [None; Some gpu; Some code; Some tuple]).
  apply Parse_pattern. now exists gpu, code, tuple.
Qed.

End PatternFacts.

(** * The handler *)

Module HandlerFacts.
Import Str StrFacts RegexpFacts PatternFacts.

Lemma parse_of_search w gpu code tuple line :
  search reGPUDriverErrorPattern line =
    Some [Some w; Some gpu; Some code; Some tuple] ->
  parseGPUDriverError line =
    Some {| gpuID := gpu; errorCode := code; errorDetails := tuple;
            message := line |}.
Proof.
  intros H. unfold parseGPUDriverError, FindStringSubmatch. now rewrite H.
Qed.

Lemma parse_of_search_None line :
  search reGPUDriverErrorPattern line = None -> parseGPUDriverError line = None.
Proof.
  intros H. unfold parseGPUDriverError, FindStringSubmatch. now rewrite H.
Qed.

(** A parsed event carries the fields of an instance found in the line. *)
Lemma parse_Some_inv line ev :
  parseGPUDriverError line = Some ev ->
  exists p w q,
    line = p ++ w ++ q /\
    Signature (gpuID ev) (errorCode ev) (errorDetails ev) w /\
    message ev = line.
Proof.
  intros H. destruct (search reGPUDriverErrorPattern line) as [caps|] eqn:E.
  - destruct (search_pattern_sound _ _ E) as (p & w & q & g & c & t & -> & Hw & ->).
    rewrite (parse_of_search _ _ _ _ _ E) in H. inversion H; subst; simpl.
    now exists p, w, q.
  - rewrite (parse_of_search_None _ E) in H. discriminate.
Qed.

Lemma parse_None_inv line :
  parseGPUDriverError line = None -> ~ HasSignature line.
Proof.
  intros H Hs. apply search_pattern_complete in Hs.
  destruct (search reGPUDriverErrorPattern line) as [caps|] eqn:E; [|contradiction].
  destruct (search_pattern_sound _ _ E) as (p & w & q & g & c & t & _ & _ & ->).
  rewrite (parse_of_search _ _ _ _ _ E) in H. discriminate.
Qed.

Lemma parse_complete line :
  HasSignature line -> parseGPUDriverError line <> None.
Proof. intros Hs H. now apply (parse_None_inv _ H). Qed.

(** The event [createHealthEventFromError] builds, with the handler and the
    clock it reads. *)
Lemma createHealthEventFromError_result ev st :
  fst (createHealthEventFromError ev st) =
  {| pb.HealthEvents_Version := 1;
     pb.Events :=
       [{| pb.Version := 1;
           pb.Agent := defaultAgentName (this st);
           pb.CheckName := checkName (this st);
           pb.ComponentClass := defaultComponentClass (this st);
           pb.GeneratedTimestamp := now (world st);
           pb.EntitiesImpacted :=
             [{| pb.EntityType := "GPU"; pb.EntityValue := gpuID ev |}];
           pb.Message := formatMessage ev;
           pb.IsFatal := true;
           pb.IsHealthy := false;
           pb.NodeName := nodeName (this st);
           pb.RecommendedAction_ := pb.RecommendedAction_RESTART_BM;
           pb.ErrorCode := ["GPU_DRIVER_ERROR"] |}] |}.
Proof. reflexivity. Qed.

Lemma ProcessLine_miss line st :
  parseGPUDriverError line = None -> ProcessLine line st = ((None, None), st).
Proof. intros H. unfold ProcessLine. now rewrite H. Qed.

Lemma ProcessLine_hit line ev st :
  parseGPUDriverError line = Some ev ->
  fst (ProcessLine line st) =
  (Some (fst (createHealthEventFromError ev st)), None).
Proof. intros H. unfold ProcessLine. now rewrite H. Qed.

(** A call leaves the handler and the clock as they are. *)
Lemma ProcessLine_frame line st :
  this (snd (ProcessLine line st)) = this st /\
  now (world (snd (ProcessLine line st))) = now (world st).
Proof.
  unfold ProcessLine. destruct (parseGPUDriverError line); split; reflexivity.
Qed.

End HandlerFacts.

(** * The cases of the package's tests *)

Example parse_GPU2 :
  parseGPUDriverError lineGPU2 =
    Some {| gpuID := "2"; errorCode := "0x0000c77d:0";
            errorDetails := "2:0:4048:4040"; message := lineGPU2 |}.
Proof. vm_compute. reflexivity. Qed.

Example parse_GPU5 :
  parseGPUDriverError lineGPU5 =
    Some {| gpuID := "5"; errorCode := "0x0000abcd:1";
            errorDetails := "5:0:1234:5678"; message := lineGPU5 |}.
Proof. vm_compute. reflexivity. Qed.

Example parse_other_error : parseGPUDriverError lineOtherError = None.
Proof. vm_compute. reflexivity. Qed.

Example parse_other_line : parseGPUDriverError lineOther = None.
Proof. vm_compute. reflexivity. Qed.

Example parse_partial :
  parseGPUDriverError "nvidia-modeset: ERROR: GPU:2: Different error message" = None.
Proof. vm_compute. reflexivity. Qed.

Example ProcessLine_GPU2 :
  exists e,
    fst (ProcessLine lineGPU2 testState) =
      (Some {| pb.HealthEvents_Version := 1; pb.Events := [e] |}, None) /\
    pb.Agent e = "test-agent" /\ pb.CheckName e = "test-check" /\
    pb.ComponentClass e = "GPU" /\ pb.NodeName e = "test-node" /\
    Str.contains (pb.Message e) "GPU 2" = true /\
    Str.contains (pb.Message e) "nvidia-modeset driver error" = true /\
    slog (world (snd (ProcessLine lineGPU2 testState))) =
      [{| logMsg := "GPU driver error detected";
          logAttrs := [("gpu_id", "2"); ("error_code", "0x0000c77d:0");
                       ("node", "test-node")] |}] /\
    gpuDriverErrorCounterMetric (world (snd (ProcessLine lineGPU2 testState)))
      ["test-node"] = 1 /\
    gpuDriverErrorsReportedMetric (world (snd (ProcessLine lineGPU2 testState)))
      ["test-node"; "2"] = 1.
Proof. eexists. vm_compute. repeat split. Qed.

Example ProcessLine_other_line :
  ProcessLine lineOther testState = ((None, None), testState).
Proof. vm_compute. reflexivity. Qed.

(** The search is not anchored: an instance further on in the line is found
    although the line starts as a line without event does. *)
Example parse_later_instance :
  parseGPUDriverError lineLaterInstance =
    Some {| gpuID := "2"; errorCode := "0x0000c77d:0";
            errorDetails := "2:0:4048:4040"; message := lineLaterInstance |}.
Proof. vm_compute. reflexivity. Qed.

(** * Properties of the classifier *)

Import Str StrFacts RegexpFacts PatternFacts HandlerFacts.

Lemma hex_hexColon a : isHex a = true -> isHexColon a = true.
Proof.
  destruct a as [[] [] [] [] [] [] [] []]; vm_compute; congruence.
Qed.

Lemma digit_hexColon a : isDigit a = true -> isHexColon a = true.
Proof.
  destruct a as [[] [] [] [] [] [] [] []]; vm_compute; congruence.
Qed.

(** The signature as the specification writes it is an instance of what the
    pattern denotes. *)
Lemma ExactSignature_Signature gpu code tuple line :
  ExactSignature gpu code tuple line -> Signature gpu code tuple line.
Proof.
  intros (Hg & (h & Hh & Hcode) & Ht & ->).
  destruct Hcode as [-> | (sub & Hsub & ->)].
  - exists h, " ". repeat split; trivial.
    now apply run1_impl with (p := isHex); [apply hex_hexColon|].
  - exists (h ++ ":" ++ sub), " ". repeat split; trivial.
    apply run1_app; [now apply run1_impl with (p := isHex); [apply hex_hexColon|]|].
    change (":" ++ sub) with (String ":" sub). simpl.
    apply all_impl with (p := isDigit); [apply digit_hexColon | now apply run1_all].
Qed.

Lemma parse_signature gpu code tuple w :
  Signature gpu code tuple w ->
  parseGPUDriverError w =
    Some {| gpuID := gpu; errorCode := code; errorDetails := tuple;
            message := w |}.
Proof.
  intros Hw. apply parse_of_search with (w := w).
  rewrite <- (app_nil_r w) at 1. now apply search_signature.
Qed.

Lemma Contains_formatMessage_code ev : Contains (formatMessage ev) (errorCode ev).
Proof.
  unfold formatMessage.
  exists ("GPU " ++ gpuID ev ++ ": nvidia-modeset driver error detected. " ++ "Error code: ").
  eexists. rewrite !app_assoc. reflexivity.
Qed.

Lemma Contains_formatMessage_details ev :
  Contains (formatMessage ev) (errorDetails ev).
Proof.
  unfold formatMessage.
  exists ("GPU " ++ gpuID ev ++ ": nvidia-modeset driver error detected. " ++
          "Error code: " ++ errorCode ev ++ ", Details: ").
  eexists. rewrite !app_assoc. reflexivity.
Qed.

(** C1. For every line that is exactly the failure signature
    [nvidia-modeset: ERROR: GPU:<digits>: Error while waiting for GPU progress: <hex>[:<digits>] <d>:<d>:<d>:<d>],
    the three groups of the match are the GPU index, the error code and the
    detail tuple of the line, and [ProcessLine] returns no error and one
    container with exactly one event, whose single impacted entity has the
    GPU index as its value and whose message contains the error code and the
    detail tuple verbatim. *)
Theorem signature_line_yields_event (st : State) (gpu code tuple line : string) :
  ExactSignature gpu code tuple line ->
  FindStringSubmatch reGPUDriverErrorPattern line = [line; gpu; code; tuple] /\
  exists e,
    fst (ProcessLine line st) =
      (Some {| pb.HealthEvents_Version := 1; pb.Events := [e] |}, None) /\
    pb.EntitiesImpacted e =
      [{| pb.EntityType := "GPU"; pb.EntityValue := gpu |}] /\
    Contains (pb.Message e) code /\
    Contains (pb.Message e) tuple.
Proof.
  intros H. apply ExactSignature_Signature in H. split.
  - unfold FindStringSubmatch. rewrite <- (app_nil_r line) at 1.
    now rewrite (search_signature _ _ _ _ "" H).
  - rewrite (ProcessLine_hit _ _ st (parse_signature _ _ _ _ H)).
    rewrite createHealthEventFromError_result. eexists. split; [reflexivity|].
    cbn [pb.EntitiesImpacted pb.Message gpuID]. split; [reflexivity|]. split.
    + apply (Contains_formatMessage_code
               {| gpuID := gpu; errorCode := code; errorDetails := tuple; message := line |}).
    + apply (Contains_formatMessage_details
               {| gpuID := gpu; errorCode := code; errorDetails := tuple; message := line |}).
Qed.

Lemma signature_line_yields_event_witness :
  ExactSignature "2" "0x0000c77d:0" "2:0:4048:4040" lineGPU2 /\
  FindStringSubmatch reGPUDriverErrorPattern lineGPU2 =
    [lineGPU2; "2"; "0x0000c77d:0"; "2:0:4048:4040"] /\
  exists e,
    fst (ProcessLine lineGPU2 testState) =
      (Some {| pb.HealthEvents_Version := 1; pb.Events := [e] |}, None) /\
    pb.EntitiesImpacted e =
      [{| pb.EntityType := "GPU"; pb.EntityValue := "2" |}] /\
    Contains (pb.Message e) "0x0000c77d:0" /\
    Contains (pb.Message e) "2:0:4048:4040".
Proof.
  assert (H : ExactSignature "2" "0x0000c77d:0" "2:0:4048:4040" lineGPU2).
  { split; [reflexivity|]. split.
    - exists "0000c77d". split; [reflexivity|]. right. exists "0". now split.
    - split; [|reflexivity]. exists "2", "0", "4048", "4040". now repeat split. }
  split; [exact H|].
  exact (signature_line_yields_event testState _ _ _ _ H).
Defined.

(** C2. Every event [ProcessLine] emits has exactly one impacted entity, of
    type GPU, exactly one error-code tag, is fatal and not healthy, and
    recommends the restart of the bare-metal host; and when the matching step
    fails (the pattern finds nothing, so the parser returns nothing) no event
    is emitted. *)
Theorem emitted_event_invariant (line : string) (st : State) :
  (forall evs e,
      fst (fst (ProcessLine line st)) = Some evs -> In e (pb.Events evs) ->
      (exists v, pb.EntitiesImpacted e =
                   [{| pb.EntityType := "GPU"; pb.EntityValue := v |}]) /\
      pb.ErrorCode e = ["GPU_DRIVER_ERROR"] /\
      pb.IsFatal e = true /\ pb.IsHealthy e = false /\
      pb.RecommendedAction_ e = pb.RecommendedAction_RESTART_BM) /\
  (FindStringSubmatch reGPUDriverErrorPattern line = [] ->
   parseGPUDriverError line = None) /\
  (parseGPUDriverError line = None ->
   fst (fst (ProcessLine line st)) = None).
Proof.
  split; [|split].
  - intros evs e Hr He. destruct (parseGPUDriverError line) as [ev|] eqn:E.
    + rewrite (ProcessLine_hit _ _ st E), createHealthEventFromError_result in Hr.
      inversion Hr; subst evs; clear Hr. destruct He as [<- | []]. simpl.
      repeat split; eauto.
    + rewrite (ProcessLine_miss _ st E) in Hr. discriminate.
  - intros H. unfold parseGPUDriverError. now rewrite H.
  - intros H. now rewrite (ProcessLine_miss _ st H).
Qed.

Lemma emitted_event_invariant_witness :
  fst (fst (ProcessLine lineOtherError testState)) = None.
Proof.
  apply (proj2 (proj2 (emitted_event_invariant lineOtherError testState))).
  vm_compute. reflexivity.
Defined.

(** C3. [ProcessLine] never returns a failure: its error result is always
    empty, and its value is nothing when the line does not match and
    otherwise one container holding exactly one event. *)
Theorem ProcessLine_never_fails (line : string) (st : State) :
  snd (fst (ProcessLine line st)) = None /\
  match parseGPUDriverError line with
  | None => fst (fst (ProcessLine line st)) = None
  | Some _ =>
      exists e, fst (fst (ProcessLine line st)) =
                  Some {| pb.HealthEvents_Version := 1; pb.Events := [e] |}
  end.
Proof.
  destruct (parseGPUDriverError line) as [ev|] eqn:E.
  - rewrite (ProcessLine_hit _ _ st E), createHealthEventFromError_result.
    split; [reflexivity|]. eexists. reflexivity.
  - now rewrite (ProcessLine_miss _ st E).
Qed.

(** C5. For every successful match the message of the event holds, verbatim
    and in this order, the GPU index, the classification text, the error
    code, the detail tuple, the fixed explanatory sentence and the raw line,
    which ends the message. *)
Theorem message_composition (line : string) (st : State) (ev : gpuDriverErrorEvent) :
  parseGPUDriverError line = Some ev ->
  exists e,
    fst (fst (ProcessLine line st)) =
      Some {| pb.HealthEvents_Version := 1; pb.Events := [e] |} /\
    InOrder [gpuID ev; classification; errorCode ev; errorDetails ev;
             explanation; line] (pb.Message e) /\
    (exists before, pb.Message e = before ++ line) /\
    pb.Message e =
      "GPU " ++ gpuID ev ++ ": " ++ classification ++ ". Error code: " ++
      errorCode ev ++ ", Details: " ++ errorDetails ev ++ ". " ++
      explanation ++ " Original message: " ++ line.
Proof.
  intros H. rewrite (ProcessLine_hit _ _ st H), createHealthEventFromError_result.
  destruct (parse_Some_inv _ _ H) as (_ & _ & _ & _ & _ & Hm).
  eexists. split; [reflexivity|]. cbn [pb.Message]. unfold formatMessage.
  rewrite Hm. unfold classification, explanation. rewrite !app_assoc.
  split; [|split].
  - cbn [InOrder].
    exists "GPU ". eexists. split; [reflexivity|].
    exists ": ". eexists. split; [reflexivity|].
    exists ". Error code: ". eexists. split; [reflexivity|].
    exists ", Details: ". eexists. split; [reflexivity|].
    exists ". ". eexists. split; [reflexivity|].
    exists " Original message: ", "". split; [|exact I].
    now rewrite app_nil_r.
  - eexists. rewrite <- !app_assoc. reflexivity.
  - reflexivity.
Qed.

Lemma message_composition_witness :
  exists ev,
    parseGPUDriverError lineGPU2 = Some ev /\
    exists e,
      fst (fst (ProcessLine lineGPU2 testState)) =
        Some {| pb.HealthEvents_Version := 1; pb.Events := [e] |} /\
      InOrder [gpuID ev; classification; errorCode ev; errorDetails ev;
               explanation; lineGPU2] (pb.Message e).
Proof.
  eexists. split; [vm_compute; reflexivity|].
  destruct (message_composition lineGPU2 testState _ eq_refl) as (e & H1 & H2 & _).
  exists e. split; [exact H1 | exact H2].
Defined.

(** The outcome of a call is a function of the line, the handler and the
    reading of the clock. *)
Lemma ProcessLine_reads line st1 st2 :
  this st1 = this st2 -> now (world st1) = now (world st2) ->
  fst (ProcessLine line st1) = fst (ProcessLine line st2).
Proof.
  intros Hh Hn. destruct (parseGPUDriverError line) as [ev|] eqn:E.
  - rewrite !(ProcessLine_hit _ _ _ E), !createHealthEventFromError_result.
    now rewrite Hh, Hn.
  - now rewrite !(ProcessLine_miss _ _ E).
Qed.

Lemma ProcessLine_erased line st1 st2 :
  this st1 = this st2 ->
  eraseTimestamps (fst (ProcessLine line st1)) =
  eraseTimestamps (fst (ProcessLine line st2)).
Proof.
  intros Hh. destruct (parseGPUDriverError line) as [ev|] eqn:E.
  - rewrite !(ProcessLine_hit _ _ _ E), !createHealthEventFromError_result.
    now rewrite Hh.
  - now rewrite !(ProcessLine_miss _ _ E).
Qed.

(** C7. Classification is deterministic.  Two calls on the same line with
    the same handler, whatever the counters, the log and the clock are at
    each call, have the same outcome once the timestamps are erased: both
    match or both do not, and the events agree on every other field.  This
    holds in particular for a second call made after the first one, at any
    later reading of the clock. *)
Theorem ProcessLine_deterministic (line : string) (h : GPUDriverErrorHandler)
    (w1 w2 : World) (t : Z) :
  (fst (fst (ProcessLine line {| this := h; world := w1 |})) = None <->
   fst (fst (ProcessLine line {| this := h; world := w2 |})) = None) /\
  eraseTimestamps (fst (ProcessLine line {| this := h; world := w1 |})) =
  eraseTimestamps (fst (ProcessLine line {| this := h; world := w2 |})) /\
  eraseTimestamps
    (fst (ProcessLine line
            (snd (setClock t (snd (ProcessLine line {| this := h; world := w1 |})))))) =
  eraseTimestamps (fst (ProcessLine line {| this := h; world := w1 |})).
Proof.
  split; [|split].
  - destruct (parseGPUDriverError line) as [ev|] eqn:E.
    + rewrite !(ProcessLine_hit _ _ _ E). split; discriminate.
    + now rewrite !(ProcessLine_miss _ _ E).
  - now apply ProcessLine_erased.
  - apply ProcessLine_erased. cbn [setClock modifyWorld snd this].
    apply ProcessLine_frame.
Qed.

(** C8. Constructing the handler always succeeds: for all configuration
    values, the empty string included, [NewGPUDriverErrorHandler] returns a
    handler that holds the four values as they are, and an empty error. *)
Theorem NewGPUDriverErrorHandler_total (node agent class check : string) :
  NewGPUDriverErrorHandler node agent class check =
    (Some {| nodeName := node; defaultAgentName := agent;
             defaultComponentClass := class; checkName := check |}, None) /\
  exists h, NewGPUDriverErrorHandler "" "" "" "" = (Some h, None).
Proof. split; [reflexivity|]. eexists. reflexivity. Qed.

Lemma processLines_cons t line calls st :
  processLines ((t, line) :: calls) st =
  let (r, st1) := ProcessLine line (snd (setClock t st)) in
  let (rs, st2) := processLines calls st1 in
  (r :: rs, st2).
Proof. reflexivity. Qed.

Lemma processLines_spec calls : forall st,
  this (snd (processLines calls st)) = this st /\
  fst (processLines calls st) =
    map (fun call => fst (ProcessLine (snd call) (snd (setClock (fst call) st))))
        calls.
Proof.
  induction calls as [|[t line] calls IH]; intros st; [now split|].
  rewrite processLines_cons. cbn [map fst snd].
  pose proof (ProcessLine_frame line (snd (setClock t st))) as [F1 _].
  destruct (ProcessLine line (snd (setClock t st))) as [r st1].
  destruct (IH st1) as [I1 I2].
  destruct (processLines calls st1) as [rs st2].
  cbn [fst snd] in *. split.
  - now rewrite I1, F1.
  - f_equal. rewrite I2. apply map_ext. intros [t' line']. cbn [fst snd].
    apply ProcessLine_reads; [exact F1 | reflexivity].
Qed.

(** C9. The configuration of the handler is immutable after construction.
    For every sequence of calls of [ProcessLine], made at any times, the
    handler holds afterwards the four values bound at construction; every
    emitted event carries exactly these values; and no call leaves anything
    behind that a later call reads: each outcome is the one the same call
    gives when it is the first call made on the handler. *)
Theorem configuration_immutable (node agent class check : string) (w : World)
    (calls : list (Z * string)) :
  exists h,
    NewGPUDriverErrorHandler node agent class check = (Some h, None) /\
    let st := {| this := h; world := w |} in
    this (snd (processLines calls st)) = h /\
    nodeName h = node /\ defaultAgentName h = agent /\
    defaultComponentClass h = class /\ checkName h = check /\
    Forall (fun r => forall evs e,
              fst r = Some evs -> In e (pb.Events evs) ->
              pb.NodeName e = node /\ pb.Agent e = agent /\
              pb.ComponentClass e = class /\ pb.CheckName e = check)
           (fst (processLines calls st)) /\
    fst (processLines calls st) =
      map (fun call => fst (ProcessLine (snd call) (snd (setClock (fst call) st))))
          calls.
Proof.
  eexists. split; [reflexivity|]. cbv zeta.
  destruct (processLines_spec calls
              {| this := {| nodeName := node; defaultAgentName := agent;
                            defaultComponentClass := class; checkName := check |};
                 world := w |}) as [H1 H2].
  repeat split; trivial.
  rewrite H2. apply Forall_forall. intros r Hr.
  apply in_map_iff in Hr. destruct Hr as ([t line] & <- & _).
  cbn [fst snd setClock modifyWorld this world]. intros evs e Hevs He.
  destruct (parseGPUDriverError line) as [ev|] eqn:E.
  - rewrite (ProcessLine_hit _ _ _ E), createHealthEventFromError_result in Hevs.
    cbn [fst] in Hevs. inversion Hevs; subst evs; clear Hevs.
    destruct He as [<- | []]. now cbn.
  - rewrite (ProcessLine_miss _ _ E) in Hevs. discriminate.
Qed.

(** C10. The signature is recognised anywhere in the line: when
    [ProcessLine] emits an event on a line, it emits one on that line between
    any two strings, whatever the state of the call. *)
Theorem signature_found_anywhere (L p s : string) (st st' : State)
    (evs : pb.HealthEvents) :
  fst (fst (ProcessLine L st)) = Some evs ->
  exists evs', fst (fst (ProcessLine (p ++ L ++ s) st')) = Some evs'.
Proof.
  intros H. destruct (parseGPUDriverError L) as [ev|] eqn:E.
  2:{ rewrite (ProcessLine_miss _ st E) in H. discriminate. }
  destruct (parse_Some_inv _ _ E) as (a & w & b & -> & Hw & _).
  assert (Hs : HasSignature (p ++ (a ++ w ++ b) ++ s)).
  { exists (p ++ a), w, (b ++ s), (gpuID ev), (errorCode ev), (errorDetails ev).
    split; [now rewrite !app_assoc | exact Hw]. }
  apply parse_complete in Hs.
  destruct (parseGPUDriverError (p ++ (a ++ w ++ b) ++ s)) as [ev'|] eqn:E';
    [|contradiction].
  rewrite (ProcessLine_hit _ _ st' E'). eexists. reflexivity.
Qed.

Lemma signature_found_anywhere_witness :
  exists evs',
    fst (fst (ProcessLine ("kernel: [42.5] " ++ lineGPU2 ++ " (repeated)") testState))
    = Some evs'.
Proof.
  eapply (signature_found_anywhere lineGPU2 "kernel: [42.5] " " (repeated)"
            testState testState).
  vm_compute. reflexivity.
Defined.

(** C6, as the code has it.  The matcher succeeds exactly on the lines that
    hold an instance of the signature, and the three fields of a success are,
    in this order: a non-empty run of digits; [0x] followed by a non-empty
    run of hexadecimal digits and colons, in any arrangement; four non-empty
    runs of digits separated by colons.  The fields stand in the line as the
    signature arranges them, a non-empty run of white space before the last.
    A line without such an instance gives no match. *)
Theorem matcher_fields (line : string) :
  match parseGPUDriverError line with
  | Some ev =>
      Str.run1 isDigit (gpuID ev) = true /\
      (exists c, Str.run1 isHexColon c = true /\ errorCode ev = "0x" ++ c) /\
      Tuple (errorDetails ev) /\
      message ev = line /\
      exists p ws q,
        Str.run1 isSpace ws = true /\
        line = p ++ (litModeset ++ gpuID ev ++ litWaiting ++ errorCode ev ++
                     ws ++ errorDetails ev) ++ q
  | None => ~ HasSignature line
  end.
Proof.
  destruct (parseGPUDriverError line) as [ev|] eqn:E.
  - destruct (parse_Some_inv _ _ E)
      as (p & w & q & Hl & (c & ws & Hg & Hc & Hcode & Hws & Ht & Hw) & Hm).
    repeat split; trivial.
    + now exists c.
    + exists p, ws, q. split; [exact Hws|]. now rewrite <- Hw.
  - now apply parse_None_inv.
Qed.

(** C6, as the specification words it, fails: on this line the matcher
    succeeds and its second field is [0x::], which is no hexadecimal error
    code with an optional sub-index. *)
Lemma matcher_fields_counterexample :
  exists ev,
    parseGPUDriverError lineColons = Some ev /\
    errorCode ev = "0x::" /\
    ~ ErrorCodeShape (errorCode ev).
Proof.
  eexists. split; [vm_compute; reflexivity|]. split; [reflexivity|].
  cbn [errorCode]. intros (h & Hh & [Hc | (sub & _ & Hc)]).
  - inversion Hc; subst h. discriminate Hh.
  - destruct h as [|a h]; [discriminate Hh|].
    inversion Hc; subst a. discriminate Hh.
Qed.

Lemma app_inv_head (a b c : string) : a ++ b = a ++ c -> b = c.
Proof.
  induction a as [|x a IH]; simpl; intros H; [exact H|].
  inversion H. now apply IH.
Qed.

(** Two maximal runs that start at the same place are the same run. *)
Lemma run_unique (p : ascii -> bool) (u v x y : string) :
  all p u = true -> all p v = true ->
  stops p x = true -> stops p y = true ->
  u ++ x = v ++ y -> u = v /\ x = y.
Proof.
  revert v. induction u as [|a u IH]; intros [|b v] Hu Hv Hx Hy H; simpl in *.
  - now split.
  - subst x. simpl in Hx. apply andb_true_iff in Hv. destruct Hv as [Hb _].
    rewrite Hb in Hx. discriminate.
  - subst y. simpl in Hy. apply andb_true_iff in Hu. destruct Hu as [Ha _].
    rewrite Ha in Hy. discriminate.
  - inversion H; subst b. apply andb_true_iff in Hu, Hv.
    destruct (IH v (proj2 Hu) (proj2 Hv) Hx Hy H2) as [-> ->]. now split.
Qed.

(** The pattern starts with the letter n: no match starts elsewhere. *)
Lemma matchAt_notN a s :
  notN a = true -> matchAt reGPUDriverErrorPattern (String a s) = None.
Proof.
  unfold notN. intros H. apply negb_true_iff in H.
  unfold matchAt, reGPUDriverErrorPattern, litModeset. cbn [run stripPrefix].
  rewrite Ascii.eqb_sym in H. now rewrite H.
Qed.

Lemma search_skip pre s :
  all notN pre = true ->
  search reGPUDriverErrorPattern (pre ++ s) = search reGPUDriverErrorPattern s.
Proof.
  induction pre as [|a pre IH]; intros H; [reflexivity|].
  simpl in H. apply andb_true_iff in H. destruct H as [Ha Hpre].
  change (String a pre ++ s) with (String a (pre ++ s)).
  rewrite search_eq, (matchAt_notN _ _ Ha). now apply IH.
Qed.

Lemma digit_notN a : isDigit a = true -> notN a = true.
Proof.
  destruct a as [[] [] [] [] [] [] [] []]; vm_compute; congruence.
Qed.

(** C4. A line that starts with [nvidia-modeset: ERROR: GPU:<n>:] and
    diverges from the signature afterwards yields no event: when what
    follows the prefix neither continues the signature (the error-wait
    phrase, the error code, white space and the tuple) nor holds a whole
    instance of it further on, [ProcessLine] returns nothing, and no error. *)
Theorem prefix_without_structure_yields_nothing (st : State) (n rest : string) :
  Str.run1 isDigit n = true ->
  ~ (exists t q, SignatureTail t /\ rest = t ++ q) ->
  ~ HasSignature rest ->
  ProcessLine (litModeset ++ n ++ ":" ++ rest) st = ((None, None), st).
Proof.
  intros Hn Htail Hrest. apply ProcessLine_miss, parse_of_search_None.
  rewrite search_eq.
  destruct (matchAt reGPUDriverErrorPattern (litModeset ++ n ++ ":" ++ rest))
    as [caps|] eqn:E.
  - exfalso. apply Htail. apply matchAt_sound in E.
    destruct E as (w & s' & caps' & Hl & P & _).
    apply Parse_pattern in P.
    destruct P as (g & code & tuple & (c & ws & Hg & Hc & -> & Hws & Ht & ->) & _).
    rewrite !app_assoc in Hl. apply app_inv_head in Hl.
    change (litWaiting ++ ?x)
      with (":" ++ " Error while waiting for GPU progress: " ++ x) in Hl.
    apply run_unique with (p := isDigit) in Hl;
      [| now apply run1_all | now apply run1_all | reflexivity | reflexivity].
    destruct Hl as [_ Hl]. inversion Hl as [Hr].
    exists (" Error while waiting for GPU progress: " ++ ("0x" ++ c) ++ ws ++ tuple), s'.
    split; [now exists c, ws, tuple|]. now rewrite !app_assoc.
  - change (litModeset ++ n ++ ":" ++ rest)
      with (String "n" ("vidia-modeset: ERROR: GPU:" ++ n ++ ":" ++ rest)).
    replace ("vidia-modeset: ERROR: GPU:" ++ n ++ ":" ++ rest)
      with (("vidia-modeset: ERROR: GPU:" ++ n ++ ":") ++ rest)
      by now rewrite !app_assoc.
    rewrite search_skip.
    + destruct (search reGPUDriverErrorPattern rest) as [caps|] eqn:Es; [|reflexivity].
      exfalso. apply Hrest. apply search_pattern_sound in Es.
      destruct Es as (p & w & q & g & c & t & -> & Hw & _). now exists p, w, q, g, c, t.
    + rewrite !all_app. apply run1_all in Hn.
      rewrite (all_impl isDigit notN n digit_notN Hn). reflexivity.
Qed.

Lemma prefix_without_structure_yields_nothing_witness :
  ProcessLine lineOtherError testState = ((None, None), testState).
Proof.
  apply (prefix_without_structure_yields_nothing testState "0" " Some other error").
  - reflexivity.
  - intros (t & q & (c & ws & tuple & _ & _ & _ & ->) & H). cbn in H. discriminate H.
  - apply parse_None_inv. vm_compute. reflexivity.
Defined.

(** * Which instance a match reports *)

Lemma app_eq_app (a b c d : string) :
  a ++ b = c ++ d ->
  (exists e, a = c ++ e /\ d = e ++ b) \/
  (exists e, e <> "" /\ c = a ++ e /\ b = e ++ d).
Proof.
  revert c. induction a as [|x a IH]; intros c H.
  - destruct c as [|y c].
    + left. exists "". now split.
    + right. exists (String y c). repeat split; [discriminate | exact H].
  - destruct c as [|y c].
    + left. exists (String x a). now split.
    + inversion H as [[Hxy H']]. destruct (IH c H') as [(e & -> & ->) | (e & He & -> & ->)].
      * left. now exists e.
      * right. now exists e.
Qed.

(** The maximal run of characters of a class at the start of a string. *)
Lemma span_run (p : ascii -> bool) (s : string) :
  exists d q, s = d ++ q /\ all p d = true /\ stops p q = true.
Proof.
  induction s as [|a s (d & q & -> & Hd & Hq)].
  - now exists "", "".
  - destruct (p a) eqn:Pa.
    + exists (String a d), q. repeat split; trivial. simpl. now rewrite Pa, Hd.
    + exists "", (String a (d ++ q)). repeat split. simpl. now rewrite Pa.
Qed.

Lemma matchAt_needs_marker s :
  stripPrefix litModeset s = None -> matchAt reGPUDriverErrorPattern s = None.
Proof.
  intros H. unfold matchAt, reGPUDriverErrorPattern. cbn [run]. now rewrite H.
Qed.

(** The marker does not overlap itself: before an occurrence of the marker,
    another occurrence starts only where a whole one fits. *)
Lemma marker_no_overlap p2 rest :
  p2 <> "" -> ~ Contains p2 litModeset ->
  stripPrefix litModeset (p2 ++ litModeset ++ rest) = None.
Proof.
  intros Hne Hno.
  destruct (stripPrefix litModeset (p2 ++ litModeset ++ rest)) as [x|] eqn:E;
    [|reflexivity].
  exfalso. apply stripPrefix_Some in E. symmetry in E.
  apply app_eq_app in E. destruct E as [(e & He & Hr) | (e & _ & Hp & _)].
  - destruct e as [|b e].
    + apply Hno. rewrite app_nil_r in He. subst p2. exists "", "". reflexivity.
    + destruct p2 as [|a p2]; [contradiction|].
      unfold litModeset in He, Hr. inversion Hr; subst b. inversion He as [[Ha Ht]].
      assert (Hall : all notN "vidia-modeset: ERROR: GPU:" = true) by reflexivity.
      rewrite Ht, all_app in Hall. simpl in Hall.
      rewrite andb_false_r in Hall. discriminate.
  - apply Hno. exists "", e. exact Hp.
Qed.

Lemma Contains_suffix (p1 p2 sub : string) :
  Contains p2 sub -> Contains (p1 ++ p2) sub.
Proof. intros (a & b & ->). exists (p1 ++ a), b. now rewrite app_assoc. Qed.

(** The search passes over a prefix in which no match starts. *)
Lemma search_skip_prefix re p s :
  (forall p1 p2, p = p1 ++ p2 -> p2 <> "" -> matchAt re (p2 ++ s) = None) ->
  search re (p ++ s) = search re s.
Proof.
  induction p as [|a p IH]; intros H; [reflexivity|].
  change (String a p ++ s) with (String a (p ++ s)). rewrite search_eq.
  change (String a (p ++ s)) with (String a p ++ s).
  rewrite (H "" (String a p) eq_refl) by discriminate.
  apply IH. intros p1 p2 -> Hne. apply (H (String a p1) p2); [reflexivity | exact Hne].
Qed.

(** The search stops at the first position at which a match starts. *)
Lemma search_leftmost re s caps :
  search re s = Some caps ->
  exists p t,
    s = p ++ t /\ matchAt re t = Some caps /\
    forall p1 p2, p = p1 ++ p2 -> p2 <> "" -> matchAt re (p2 ++ t) = None.
Proof.
  induction s as [|a s IH]; rewrite search_eq.
  - destruct (matchAt re "") eqn:E; [|discriminate].
    intros H; inversion H; subst. exists "", "". repeat split; trivial.
    intros [|] [|]; simpl; congruence.
  - destruct (matchAt re (String a s)) eqn:E.
    + intros H; inversion H; subst. exists "", (String a s). repeat split; trivial.
      intros [|] [|]; simpl; congruence.
    + intros H. destruct (IH H) as (p & t & -> & Hm & Hp).
      exists (String a p), t. repeat split; trivial.
      intros [|b p1] p2 Hpp Hne.
      * simpl in Hpp. subst p2. exact E.
      * inversion Hpp; subst. now apply Hp with (p1 := p1).
Qed.

Lemma Tuple_extend t d :
  Tuple t -> all isDigit d = true -> Tuple (t ++ d).
Proof.
  intros (d1 & d2 & d3 & d4 & H1 & H2 & H3 & H4 & ->) Hd.
  exists d1, d2, d3, (d4 ++ d). repeat split; trivial.
  - now apply run1_app.
  - now rewrite !app_assoc.
Qed.

Lemma Signature_extend gpu code tuple w d :
  Signature gpu code tuple w -> all isDigit d = true ->
  Signature gpu code (tuple ++ d) (w ++ d).
Proof.
  intros (c & ws & Hg & Hc & -> & Hws & Ht & ->) Hd.
  exists c, ws. repeat split; trivial.
  - now apply Tuple_extend.
  - now rewrite !app_assoc.
Qed.

(** The anchored match reads an instance to the end of its last run of
    digits, and its groups are the fields of that instance. *)
Lemma matchAt_pattern_inv t caps :
  matchAt reGPUDriverErrorPattern t = Some caps ->
  exists w q gpu code tuple,
    t = w ++ q /\ Signature gpu code tuple w /\ stops isDigit q = true /\
    caps = [Some w; Some gpu; Some code; Some tuple].
Proof.
  intros H. pose proof H as H0. apply matchAt_sound in H.
  destruct H as (w & q & caps' & -> & P & ->).
  apply Parse_pattern in P. destruct P as (gpu & code & tuple & Hw & ->).
  exists w, q, gpu, code, tuple. repeat split; trivial.
  destruct (span_run isDigit q) as (d & q' & -> & Hd & Hq').
  pose proof (matchAt_signature _ _ _ _ q' (Signature_extend _ _ _ _ d Hw Hd) Hq') as H1.
  rewrite app_assoc, H0 in H1. cbn [setCap] in H1.
  assert (Hwd : w ++ "" = w ++ d) by (rewrite app_nil_r; congruence).
  apply app_inv_head in Hwd. now subst d.
Qed.

Lemma contains_false (s sub : string) :
  contains s sub = false -> ~ Contains s sub.
Proof.
  intros H Hc. apply contains_Contains in Hc. rewrite H in Hc. discriminate.
Qed.

(** X1. An instance of the signature that stands in a line after a prefix
    without the marker [nvidia-modeset: ERROR: GPU:], and that no digit
    follows, is the match: the groups are the instance and its three fields,
    whatever the white space before the tuple and whatever the rest of the
    line, further instances included. *)
Theorem located_instance_fields (p w q gpu code tuple : string) :
  contains p litModeset = false ->
  Signature gpu code tuple w ->
  stops isDigit q = true ->
  FindStringSubmatch reGPUDriverErrorPattern (p ++ w ++ q) = [w; gpu; code; tuple] /\
  parseGPUDriverError (p ++ w ++ q) =
    Some {| gpuID := gpu; errorCode := code; errorDetails := tuple;
            message := p ++ w ++ q |}.
Proof.
  intros Hp Hw Hq. apply contains_false in Hp.
  assert (E : search reGPUDriverErrorPattern (p ++ w ++ q) =
              Some [Some w; Some gpu; Some code; Some tuple]).
  { rewrite search_skip_prefix; [now apply search_signature|].
    intros p1 p2 -> Hne. apply matchAt_needs_marker.
    destruct Hw as (c & ws & _ & _ & _ & _ & _ & ->). rewrite !app_assoc.
    apply marker_no_overlap; [exact Hne|].
    intros Hc. apply Hp. now apply Contains_suffix. }
  split; [|now apply parse_of_search with (w := w)].
  unfold FindStringSubmatch. now rewrite E.
Qed.

Lemma located_instance_fields_witness :
  parseGPUDriverError lineSyslog =
    Some {| gpuID := "2"; errorCode := "0x0000c77d:0";
            errorDetails := "2:0:4048:4040"; message := lineSyslog |}.
Proof.
  refine (proj2 (located_instance_fields
            "Oct  3 11:02:07 node-7 kernel: [ 5012.101] "
            ("nvidia-modeset: ERROR: GPU:2: Error while waiting for GPU progress: 0x0000c77d:0"
               ++ String "009" (String "009" "2:0:4048:4040"))
            " (retry)" "2" "0x0000c77d:0" "2:0:4048:4040" _ _ _)).
  - vm_compute. reflexivity.
  - exists "0000c77d:0", (String "009" (String "009" "")).
    repeat split.
    exists "2", "0", "4048", "4040". repeat split.
  - reflexivity.
Defined.

(** X2. The instance a match reports is the leftmost one of the line, read
    to the end of its last run of digits: the three fields of a parsed event
    are those of an instance after which no digit follows, and no instance
    of the signature starts at an earlier position of the line. *)
Theorem reported_instance_leftmost (line : string) (ev : gpuDriverErrorEvent) :
  parseGPUDriverError line = Some ev ->
  exists p w q,
    line = p ++ w ++ q /\
    Signature (gpuID ev) (errorCode ev) (errorDetails ev) w /\
    stops isDigit q = true /\
    forall p1 p2, p = p1 ++ p2 -> p2 <> "" ->
      ~ exists w' q' g c t, Signature g c t w' /\ p2 ++ w ++ q = w' ++ q'.
Proof.
  intros H. destruct (search reGPUDriverErrorPattern line) as [caps|] eqn:E.
  2:{ rewrite (parse_of_search_None _ E) in H. discriminate. }
  destruct (search_leftmost _ _ _ E) as (p & t & -> & Hm & Hleft).
  destruct (matchAt_pattern_inv _ _ Hm) as (w & q & g & c & tu & -> & Hw & Hq & ->).
  rewrite (parse_of_search _ _ _ _ _ E) in H. inversion H; subst ev; clear H.
  exists p, w, q. cbn [gpuID errorCode errorDetails]. repeat split; trivial.
  intros p1 p2 Hp Hne (w' & q' & g' & c' & t' & Hw' & Heq).
  specialize (Hleft p1 p2 Hp Hne). rewrite Heq in Hleft.
  assert (P : Parse reGPUDriverErrorPattern w' caps0 [None; Some g'; Some c'; Some t']).
  { apply Parse_pattern. now exists g', c', t'. }
  exact (matchAt_complete _ _ q' _ _ P Hleft).
Qed.

Lemma reported_instance_leftmost_witness :
  exists p w q,
    lineLaterInstance = p ++ w ++ q /\
    Signature "2" "0x0000c77d:0" "2:0:4048:4040" w /\
    stops isDigit q = true.
Proof.
  destruct (reported_instance_leftmost lineLaterInstance
              {| gpuID := "2"; errorCode := "0x0000c77d:0";
                 errorDetails := "2:0:4048:4040"; message := lineLaterInstance |})
    as (p & w & q & H1 & H2 & H3 & _).
  - vm_compute. reflexivity.
  - exists p, w, q. repeat split; assumption.
Defined.

Lemma setCap_length i v caps : List.length (setCap i v caps) = List.length caps.
Proof.
  revert i; induction caps as [|c caps IH]; intros [|i]; simpl; trivial.
  now rewrite IH.
Qed.

Lemma Parse_length r : forall w caps caps',
  Parse r w caps caps' -> List.length caps' = List.length caps.
Proof.
  induction r as [l|c|r1 IH1 r2 IH2|i r IH]; simpl; intros w caps caps' P.
  - now destruct P as [_ ->].
  - now destruct P as [_ ->].
  - destruct P as (w1 & w2 & mid & _ & P1 & P2).
    now rewrite (IH2 _ _ _ P2), (IH1 _ _ _ P1).
  - destruct P as (mid & P1 & ->). now rewrite setCap_length, (IH _ _ _ P1).
Qed.

(** X3. [FindStringSubmatch] returns the nil slice or one string for the
    whole match and one for each group, for every pattern; so the guard of
    [parseGPUDriverError] on fewer than four strings holds on the nil slice
    only, the three index reads that follow it are in range, and the parser
    returns nothing exactly when the pattern finds nothing. *)
Theorem submatch_slice_shape (re : Regexp) (line : string) :
  (FindStringSubmatch re line = [] \/
   List.length (FindStringSubmatch re line) = S (NumSubexp re)) /\
  ((FindStringSubmatch reGPUDriverErrorPattern line = [] /\
    parseGPUDriverError line = None) \/
   exists whole gpu code tuple,
     FindStringSubmatch reGPUDriverErrorPattern line = [whole; gpu; code; tuple] /\
     parseGPUDriverError line =
       Some {| gpuID := gpu; errorCode := code; errorDetails := tuple;
               message := line |}).
Proof.
  split.
  - unfold FindStringSubmatch. destruct (search re line) as [caps|] eqn:E;
      [right | now left].
    apply search_sound in E. destruct E as (p & w & q & caps' & _ & P & ->).
    rewrite length_map, setCap_length, (Parse_length _ _ _ _ P).
    apply repeat_length.
  - destruct (search reGPUDriverErrorPattern line) as [caps|] eqn:E.
    + right. destruct (search_pattern_sound _ _ E) as (p & w & q & g & c & t & _ & _ & ->).
      exists w, g, c, t. split; [|now apply parse_of_search with (w := w)].
      unfold FindStringSubmatch. now rewrite E.
    + left. split; [|now apply parse_of_search_None].
      unfold FindStringSubmatch. now rewrite E.
Qed.

(** * What a call writes *)

Lemma Inc_same labels c : Inc labels c labels = S (c labels).
Proof. unfold Inc. now destruct (list_eq_dec string_dec labels labels). Qed.

Lemma Inc_other labels c l : l <> labels -> Inc labels c l = c l.
Proof. unfold Inc. intros H. now destruct (list_eq_dec string_dec l labels). Qed.

(** The state a call leaves on a line with an instance. *)
Lemma ProcessLine_hit_state line ev st :
  parseGPUDriverError line = Some ev ->
  snd (ProcessLine line st) =
  {| this := this st;
     world :=
       {| gpuDriverErrorCounterMetric :=
            Inc [nodeName (this st)] (gpuDriverErrorCounterMetric (world st));
          gpuDriverErrorsReportedMetric :=
            Inc [nodeName (this st); gpuID ev]
                (gpuDriverErrorsReportedMetric (world st));
          slog := slog (world st) ++
                  [{| logMsg := "GPU driver error detected";
                      logAttrs := [("gpu_id", gpuID ev);
                                   ("error_code", errorCode ev);
                                   ("node", nodeName (this st))] |}];
          now := now (world st) |} |}.
Proof. intros H. unfold ProcessLine. now rewrite H. Qed.

(** X4. What one call writes.  On a line without instance the call leaves
    the handler, both counters, the log and the clock as they are.  On a
    line with an instance it adds one to the node's counter of errors and to
    the counter of the node and the GPU index, leaves every other counter as
    it is, appends one log record with the GPU index, the error code and the
    node, and leaves the handler and the clock as they are. *)
Theorem ProcessLine_effects (line : string) (st : State) :
  let st' := snd (ProcessLine line st) in
  let node := nodeName (this st) in
  match parseGPUDriverError line with
  | None => st' = st
  | Some ev =>
      this st' = this st /\ now (world st') = now (world st) /\
      gpuDriverErrorCounterMetric (world st') [node] =
        S (gpuDriverErrorCounterMetric (world st) [node]) /\
      gpuDriverErrorsReportedMetric (world st') [node; gpuID ev] =
        S (gpuDriverErrorsReportedMetric (world st) [node; gpuID ev]) /\
      (forall l, l <> [node] ->
         gpuDriverErrorCounterMetric (world st') l =
         gpuDriverErrorCounterMetric (world st) l) /\
      (forall l, l <> [node; gpuID ev] ->
         gpuDriverErrorsReportedMetric (world st') l =
         gpuDriverErrorsReportedMetric (world st) l) /\
      slog (world st') =
        (slog (world st) ++
         [{| logMsg := "GPU driver error detected";
             logAttrs := [("gpu_id", gpuID ev); ("error_code", errorCode ev);
                          ("node", node)] |}])%list
  end.
Proof.
  cbv zeta. destruct (parseGPUDriverError line) as [ev|] eqn:E.
  - rewrite (ProcessLine_hit_state _ _ st E). cbn [this world now slog
      gpuDriverErrorCounterMetric gpuDriverErrorsReportedMetric].
    repeat split; try apply Inc_same; intros l Hl; now apply Inc_other.
  - now rewrite (ProcessLine_miss _ st E).
Qed.

(** X5. The counters and the log keep count of the events.  Over any
    sequence of calls on one handler, the node's counter of errors grows by
    the number of lines with an instance, which is the number of containers
    returned and the number of log records appended; and for every GPU index
    the counter of the node and that index grows by the number of lines
    whose instance has that index. *)
Theorem processLines_accounting (calls : list (Z * string)) (st : State) :
  let st' := snd (processLines calls st) in
  let node := nodeName (this st) in
  emittedCount (fst (processLines calls st)) = hitCount calls /\
  gpuDriverErrorCounterMetric (world st') [node] =
    gpuDriverErrorCounterMetric (world st) [node] + hitCount calls /\
  List.length (slog (world st')) = List.length (slog (world st)) + hitCount calls /\
  forall gpu,
    gpuDriverErrorsReportedMetric (world st') [node; gpu] =
    gpuDriverErrorsReportedMetric (world st) [node; gpu] + hitCountOn gpu calls.
Proof.
  cbv zeta. revert st. induction calls as [|[t line] calls IH]; intros st.
  { unfold hitCount, hitCountOn, emittedCount. cbn. repeat split; intros; lia. }
  rewrite processLines_cons.
  pose proof (ProcessLine_frame line (snd (setClock t st))) as [F _].
  pose proof (ProcessLine_hit line) as Hhit.
  pose proof (ProcessLine_hit_state line) as Hst.
  pose proof (ProcessLine_miss line (snd (setClock t st))) as Hmiss.
  unfold hitCount, hitCountOn, emittedCount, isHit, isHitOn in *.
  cbn [filter snd fst].
  destruct (parseGPUDriverError line) as [ev|] eqn:E.
  - specialize (Hhit ev (snd (setClock t st)) eq_refl).
    specialize (Hst ev (snd (setClock t st)) eq_refl).
    destruct (ProcessLine line (snd (setClock t st))) as [r st1].
    cbn [fst snd] in *. specialize (IH st1).
    destruct (processLines calls st1) as [rs st2]. cbn [fst snd] in *.
    subst r st1. cbn [fst filter List.length this world setClock modifyWorld snd
      gpuDriverErrorCounterMetric gpuDriverErrorsReportedMetric slog now] in *.
    destruct IH as (I1 & I2 & I3 & I4). rewrite I1, I2, I3, Inc_same.
    rewrite List.length_app. cbn [List.length]. repeat split; try lia.
    intros gpu. rewrite I4. destruct (String.eqb_spec (gpuID ev) gpu) as [->|Hne].
    + rewrite Inc_same. cbn [List.length]. lia.
    + rewrite Inc_other by congruence. reflexivity.
  - specialize (Hmiss eq_refl).
    destruct (ProcessLine line (snd (setClock t st))) as [r st1].
    specialize (IH st1).
    destruct (processLines calls st1) as [rs st2]. cbn [fst snd] in *.
    inversion Hmiss; subst r st1. cbn [fst filter this world setClock modifyWorld snd
      gpuDriverErrorCounterMetric gpuDriverErrorsReportedMetric slog now] in *.
    exact IH.
Qed.

(** * Lines without event, and what a message tells *)

Lemma Signature_Contains gpu code tuple w p q :
  Signature gpu code tuple w ->
  Contains (p ++ w ++ q) litModeset /\ Contains (p ++ w ++ q) litWaiting.
Proof.
  intros (c & ws & _ & _ & _ & _ & _ & ->). split.
  - exists p. eexists. rewrite !app_assoc. reflexivity.
  - exists (p ++ litModeset ++ gpu). eexists. rewrite !app_assoc. reflexivity.
Qed.

(** X6. A line that lacks the marker [nvidia-modeset: ERROR: GPU:] or the
    phrase [: Error while waiting for GPU progress: ] yields no event and no
    error, and the call writes nothing: no counter moves and no log record
    is appended. *)
Theorem marker_required (line : string) (st : State) :
  contains line litModeset = false \/ contains line litWaiting = false ->
  ProcessLine line st = ((None, None), st).
Proof.
  intros H. apply ProcessLine_miss.
  destruct (parseGPUDriverError line) as [ev|] eqn:E; [exfalso | reflexivity].
  destruct (parse_Some_inv _ _ E) as (p & w & q & -> & Hw & _).
  destruct (Signature_Contains _ _ _ _ p q Hw) as [C1 C2].
  apply contains_Contains in C1, C2. rewrite C1, C2 in H.
  destruct H; discriminate.
Qed.

Lemma marker_required_witness :
  ProcessLine "nvidia-modeset: ERROR: GPU:3: Failed to allocate display memory" testState =
  ((None, None), testState).
Proof.
  apply marker_required. right. vm_compute. reflexivity.
Defined.

Lemma run1_length p s : run1 p s = true -> 1 <= String.length s.
Proof. destruct s; [discriminate | simpl; lia]. Qed.

Lemma Tuple_length t : Tuple t -> 7 <= String.length t.
Proof.
  intros (d1 & d2 & d3 & d4 & H1 & H2 & H3 & H4 & ->).
  apply run1_length in H1, H2, H3, H4.
  rewrite !length_app. cbn [String.length]. lia.
Qed.

(** X7. A line on which an event is emitted has at least 79 characters,
    the length of the shortest instance of the signature: every shorter
    line, the empty line included, yields nothing. *)
Theorem event_line_length (line : string) (st : State) (evs : pb.HealthEvents) :
  fst (fst (ProcessLine line st)) = Some evs ->
  79 <= String.length line.
Proof.
  intros H. destruct (parseGPUDriverError line) as [ev|] eqn:E.
  2:{ rewrite (ProcessLine_miss _ st E) in H. discriminate. }
  destruct (parse_Some_inv _ _ E)
    as (p & w & q & -> & (c & ws & Hg & Hc & Hcode & Hws & Ht & ->) & _).
  apply run1_length in Hg, Hc, Hws. apply Tuple_length in Ht.
  rewrite Hcode, !length_app.
  change (String.length litModeset) with 27.
  change (String.length litWaiting) with 40.
  change (String.length "0x") with 2. lia.
Qed.

Lemma event_line_length_witness :
  String.length lineShortest = 79 /\
  exists evs,
    fst (fst (ProcessLine lineShortest testState)) = Some evs /\
    79 <= String.length lineShortest.
Proof.
  split; [reflexivity|]. eexists. split; [vm_compute; reflexivity|].
  refine (event_line_length lineShortest testState _ _).
  vm_compute. reflexivity.
Defined.

Lemma Tuple_hexColon t : Tuple t -> all isHexColon t = true.
Proof.
  intros (d1 & d2 & d3 & d4 & H1 & H2 & H3 & H4 & ->).
  apply run1_all in H1, H2, H3, H4.
  apply (all_impl _ _ _ digit_hexColon) in H1, H2, H3, H4.
  rewrite !all_app, H1, H2, H3, H4. reflexivity.
Qed.

Lemma formatMessage_inj ev1 ev2 w1 w2 :
  Signature (gpuID ev1) (errorCode ev1) (errorDetails ev1) w1 ->
  Signature (gpuID ev2) (errorCode ev2) (errorDetails ev2) w2 ->
  formatMessage ev1 = formatMessage ev2 ->
  gpuID ev1 = gpuID ev2 /\ errorCode ev1 = errorCode ev2 /\
  errorDetails ev1 = errorDetails ev2 /\ message ev1 = message ev2.
Proof.
  intros (c1 & ws1 & Hg1 & Hc1 & Hcode1 & _ & Ht1 & _)
         (c2 & ws2 & Hg2 & Hc2 & Hcode2 & _ & Ht2 & _) H.
  unfold formatMessage in H. rewrite Hcode1, Hcode2 in *.
  apply app_inv_head in H.
  apply run_unique with (p := isDigit) in H;
    [| now apply run1_all | now apply run1_all | reflexivity | reflexivity].
  destruct H as [Hg H]. do 2 apply app_inv_head in H.
  rewrite !app_assoc in H. apply app_inv_head in H.
  apply run_unique with (p := isHexColon) in H;
    [| now apply run1_all | now apply run1_all | reflexivity | reflexivity].
  destruct H as [Hc H]. apply app_inv_head in H.
  apply run_unique with (p := isHexColon) in H;
    [| now apply Tuple_hexColon | now apply Tuple_hexColon | reflexivity | reflexivity].
  destruct H as [Hd H]. do 4 apply app_inv_head in H.
  subst c2. now repeat split.
Qed.

(** X8. The message tells the line: when two calls, on any two handlers and
    at any times, emit events with the same message, the two lines are the
    same, and so are the GPU indices of the two events. *)
Theorem message_determines_line (l1 l2 : string) (st1 st2 : State)
    (evs1 evs2 : pb.HealthEvents) (e1 e2 : pb.HealthEvent) :
  fst (fst (ProcessLine l1 st1)) = Some evs1 -> In e1 (pb.Events evs1) ->
  fst (fst (ProcessLine l2 st2)) = Some evs2 -> In e2 (pb.Events evs2) ->
  pb.Message e1 = pb.Message e2 ->
  l1 = l2 /\ pb.EntitiesImpacted e1 = pb.EntitiesImpacted e2.
Proof.
  intros H1 I1 H2 I2 Hm.
  destruct (parseGPUDriverError l1) as [ev1|] eqn:E1.
  2:{ rewrite (ProcessLine_miss _ st1 E1) in H1. discriminate. }
  destruct (parseGPUDriverError l2) as [ev2|] eqn:E2.
  2:{ rewrite (ProcessLine_miss _ st2 E2) in H2. discriminate. }
  rewrite (ProcessLine_hit _ _ st1 E1), createHealthEventFromError_result in H1.
  rewrite (ProcessLine_hit _ _ st2 E2), createHealthEventFromError_result in H2.
  cbn [fst] in H1, H2. inversion H1; subst evs1; clear H1.
  inversion H2; subst evs2; clear H2.
  destruct I1 as [<- | []]. destruct I2 as [<- | []]. cbn [pb.Message] in Hm.
  destruct (parse_Some_inv _ _ E1) as (p1 & w1 & q1 & _ & S1 & M1).
  destruct (parse_Some_inv _ _ E2) as (p2 & w2 & q2 & _ & S2 & M2).
  destruct (formatMessage_inj _ _ _ _ S1 S2 Hm) as (Hg & _ & _ & Hl).
  cbn [pb.EntitiesImpacted]. rewrite Hg. split; [congruence | reflexivity].
Qed.

Lemma message_determines_line_witness :
  lineGPU2 = lineGPU2 /\
  [{| pb.EntityType := "GPU"; pb.EntityValue := "2" |}] =
  [{| pb.EntityType := "GPU"; pb.EntityValue := "2" |}].
Proof.
  refine (message_determines_line lineGPU2 lineGPU2 testState
            (snd (ProcessLine lineGPU5 testState)) _ _ _ _
            eq_refl (or_introl eq_refl) eq_refl (or_introl eq_refl) _).
  vm_compute. reflexivity.
Defined.
